(** * The transcript watcher and drink dispatcher of [main.py]

    A shallow embedding of [main.py]: the text routines behind
    [get_last_line], the Python values an action can return, the
    stateless dispatch [run_gemini_conversation] and the polling loop of
    [main], followed by the properties of the change-detection and
    dispatch loop.

    The program talks to a file system, to a language-model endpoint and
    to an actuator.  Every such call is modelled as an event that carries
    the answer the outside world gave; the answers of one loop iteration
    are collected in a record [Env].  A run of the loop consumes a list
    of such records, one per iteration, and yields the trace of events,
    the local state of [main] and the way the run stopped. *)

From Stdlib Require Import ZArith NArith Ascii String List.
From stdpp Require Import base option list strings gmap.

Local Open Scope string_scope.
Local Open Scope list_scope.

(** ** Python text *)

Module Text.

(** A character is a code point below 256.  [is_space] is the
    whitespace test of [str.strip()] on that range: U+0009..U+000D,
    U+001C..U+0020, U+0085 and U+00A0. *)
Definition is_space (c : ascii) : bool :=
  let n := N_of_ascii c in
  (((9 <=? n) && (n <=? 13)) || ((28 <=? n) && (n <=? 32))
   || (n =? 133) || (n =? 160))%N.

Definition LF : ascii := "010"%char.
Definition CR : ascii := "013"%char.

(** [str.lstrip()]. *)
Fixpoint lstrip (s : string) : string :=
  match s with
  | EmptyString => EmptyString
  | String c s' => if is_space c then lstrip s' else s
  end.

(** [str.rstrip()]. *)
Fixpoint rstrip (s : string) : string :=
  match s with
  | EmptyString => EmptyString
  | String c s' =>
      match rstrip s' with
      | EmptyString => if is_space c then EmptyString else String c EmptyString
      | r => String c r
      end
  end.

(** [str.strip()]. *)
Definition strip (s : string) : string := rstrip (lstrip s).

(** The file is opened in text mode with the default [newline=None]:
    on input ["\r\n"] and a lone ["\r"] are read as ["\n"]. *)
Fixpoint universal_newlines (s : string) : string :=
  match s with
  | EmptyString => EmptyString
  | String c s' =>
      if Ascii.eqb c CR then
        match s' with
        | String c' s'' =>
            if Ascii.eqb c' LF then String LF (universal_newlines s'')
            else String LF (universal_newlines s')
        | EmptyString => String LF EmptyString
        end
      else String c (universal_newlines s')
  end.

(** Iterating over a text file yields its lines, each with its
    terminating ["\n"] (the last one may lack it). *)
Fixpoint split_lines (s : string) : list string :=
  match s with
  | EmptyString => []
  | String c s' =>
      if Ascii.eqb c LF then String LF EmptyString :: split_lines s'
      else match split_lines s' with
           | [] => [String c EmptyString]
           | l :: ls => String c l :: ls
           end
  end.

Definition file_lines (content : string) : list string :=
  split_lines (universal_newlines content).

(** Truth value of a [str]: non-empty. *)
Definition truthy (s : string) : bool :=
  match s with EmptyString => false | _ => true end.

(** Helpers for stating what [strip] leaves. *)
Fixpoint all_space (s : string) : bool :=
  match s with
  | EmptyString => true
  | String c s' => is_space c && all_space s'
  end.

Definition head_char (s : string) : option ascii :=
  match s with EmptyString => None | String c _ => Some c end.

Fixpoint last_char (s : string) : option ascii :=
  match s with
  | EmptyString => None
  | String c EmptyString => Some c
  | String _ s' => last_char s'
  end.

End Text.

(** [get_last_line] on the text of the file:
    [lines = [line.strip() for line in file if line.strip()]], then
    [lines[-1]] when [lines] is non-empty and [None] otherwise. *)
Definition get_last_line_of (content : string) : option string :=
  let lines :=
    map Text.strip
        (List.filter (fun line => Text.truthy (Text.strip line))
                     (Text.file_lines content)) in
  match lines with
  | [] => None
  | _ => last lines
  end.

(** ** Python values *)

(** The values an action may receive or return: [None], booleans,
    integers, strings, and any other object (compared by identity). *)
Inductive Value : Type :=
| VNone
| VBool (b : bool)
| VInt (z : Z)
| VStr (s : string)
| VObj (id : positive).

(** [bool] is a subtype of [int]: [True] is the integer 1. *)
Definition as_int (v : Value) : option Z :=
  match v with
  | VBool b => Some (if b then 1 else 0)%Z
  | VInt z => Some z
  | _ => None
  end.

(** The comparison [v == w]. *)
Definition py_eq (v w : Value) : bool :=
  match as_int v, as_int w with
  | Some x, Some y => (x =? y)%Z
  | Some _, None | None, Some _ => false
  | None, None =>
      match v, w with
      | VNone, VNone => true
      | VStr s, VStr t => String.eqb s t
      | VObj i, VObj j => Pos.eqb i j
      | _, _ => false
      end
  end.

(** The test of the success branch, [result == True]. *)
Definition is_success (result : Value) : bool := py_eq result (VBool true).

(** ** Exceptions, the Oracle's response, the outside world *)

(** Exceptions raised by the collaborators, by class.  All of them
    derive from [Exception]; [exit] is not among them, it is the
    outcome [Exited] below. *)
Inductive Exn : Type :=
| AttributeError
| IndexError
| OtherException (cls : string).

(** The file's modification time.  [os.path.getmtime] returns a number
    of seconds; the program only compares two of them with [!=], so the
    value is kept as an integer count of its smallest unit. *)
Definition Timestamp : Type := Z.

Record FunctionCall : Type := {
  fc_name : string;
  fc_args : option (gmap string Value)
}.

(** [function_call = None] stands for a falsy attribute: no call was
    selected by the model. *)
Record Part : Type := { function_call : option FunctionCall }.

Record Content : Type := { parts : list Part }.

(** [content = None]: the candidate carries nothing to take [.parts] of. *)
Record Candidate : Type := { content : option Content }.

Record Response : Type := {
  candidates : list Candidate;
  text : Exn + string
}.

(** What a call of an action gives back: a plain value, or a coroutine
    whose completion yields a value or raises. *)
Inductive CallValue : Type :=
| Plain (v : Value)
| Coroutine (r : Exn + Value).

(** The answers of the outside world during one iteration of the loop:
    whether [transcriptions/transcriptions.txt] exists, its modification
    time, its text (or the exception raised on the way), the Oracle's
    answer to a prompt, and what a call of the actuator gives back. *)
Record Env : Type := {
  path_exists : bool;
  path_getmtime : Exn + Timestamp;
  file_text : Exn + string;
  generate_content : string -> Exn + Response;
  dispense_drink : gmap string Value -> Exn + CallValue
}.

Inductive LogMsg : Type :=
| LogReady
| LogMonitoring
| LogNewRequest
| LogUser (user_prompt : string)
| LogWantsCall (function_name : string) (args : gmap string Value)
| LogFunctionResult (result : Value)
| LogSuccess
| LogUnknownFunction (function_name : string)
| LogNoFunctionCall
| LogText (t : string)
| LogNonText.

Inductive Event : Type :=
| EvExists (b : bool)
| EvGetmtime (r : Exn + Timestamp)
| EvReadFile (r : Exn + string)
| EvGenerate (full_prompt : string) (r : Exn + Response)
| EvCall (function_name : string) (args : gmap string Value)
         (r : Exn + CallValue)
| EvAwait (r : Exn + Value)
| EvPrint (m : LogMsg)
| EvExit (code : Z)
| EvWriteFile (path data : string)
| EvSleep (milliseconds : Z).

(** ** Computations *)

Inductive Outcome (A : Type) : Type :=
| Normal (a : A)
| Raised (e : Exn)
| Exited (code : Z).
Arguments Normal {A} a.
Arguments Raised {A} e.
Arguments Exited {A} code.

(** A computation without access to the locals of [main]: how it ends
    and the events it performed, in order. *)
Record IO (A : Type) : Type := mkIO {
  outcome : Outcome A;
  trace : list Event
}.
Arguments mkIO {A} outcome trace.
Arguments outcome {A} _.
Arguments trace {A} _.

#[global] Instance IO_ret : MRet IO := fun A a => mkIO (Normal a) [].

#[global] Instance IO_bind : MBind IO := fun A B f m =>
  match m with
  | mkIO (Normal a) t => match f a with mkIO o t' => mkIO o (t ++ t') end
  | mkIO (Raised e) t => mkIO (Raised e) t
  | mkIO (Exited c) t => mkIO (Exited c) t
  end.

Definition emit (ev : Event) : IO unit := mkIO (Normal tt) [ev].

Definition raise {A} (e : Exn) : IO A := mkIO (Raised e) [].

Definition of_sum {A} (r : Exn + A) : IO A :=
  match r with inl e => raise e | inr a => mret a end.

(** [try: body except <classes>: handler]. *)
Definition try_except {A} (body : IO A) (catches : Exn -> bool)
    (handler : IO A) : IO A :=
  match body with
  | mkIO (Raised e) t =>
      if catches e then
        match handler with mkIO o t' => mkIO o (t ++ t') end
      else body
  | _ => body
  end.

Definition print (m : LogMsg) : IO unit := emit (EvPrint m).

(** [exit(code)]: nothing after it runs. *)
Definition exit (code : Z) : IO unit := mkIO (Exited code) [EvExit code].

Definition write_file (path data : string) : IO unit :=
  emit (EvWriteFile path data).

Definition sleep (milliseconds : Z) : IO unit := emit (EvSleep milliseconds).

Definition os_path_exists (env : Env) : IO bool :=
  emit (EvExists (path_exists env));; mret (path_exists env).

Definition os_path_getmtime (env : Env) : IO Timestamp :=
  emit (EvGetmtime (path_getmtime env));; of_sum (path_getmtime env).

Definition model_generate_content (env : Env) (full_prompt : string)
    : IO Response :=
  emit (EvGenerate full_prompt (generate_content env full_prompt));;
  of_sum (generate_content env full_prompt).

Definition call (function_name : string)
    (f : gmap string Value -> Exn + CallValue) (args : gmap string Value)
    : IO CallValue :=
  emit (EvCall function_name args (f args));; of_sum (f args).

Definition await (r : Exn + Value) : IO Value :=
  emit (EvAwait r);; of_sum r.

(** The locals of [main] that survive an iteration. *)
Record WatchState : Type := {
  last_mtime : option Timestamp;
  last_processed_line : string
}.

(** A computation inside [main]: it also reads and assigns the locals.
    The state is kept in every outcome, so that it can be inspected at
    the point where an exception or an exit left the loop. *)
Record Prog (A : Type) : Type := mkProg {
  run : WatchState -> IO A * WatchState
}.
Arguments mkProg {A} run.
Arguments run {A} _ _.

#[global] Instance Prog_ret : MRet Prog := fun A a =>
  mkProg (fun st => (mret a, st)).

#[global] Instance Prog_bind : MBind Prog := fun A B f m =>
  mkProg (fun st =>
    match run m st with
    | (mkIO (Normal a) t, st1) =>
        match run (f a) st1 with
        | (mkIO o t', st2) => (mkIO o (t ++ t'), st2)
        end
    | (mkIO (Raised e) t, st1) => (mkIO (Raised e) t, st1)
    | (mkIO (Exited c) t, st1) => (mkIO (Exited c) t, st1)
    end).

Definition lift {A} (m : IO A) : Prog A := mkProg (fun st => (m, st)).

Definition get_state : Prog WatchState := mkProg (fun st => (mret st, st)).

Definition set_last_mtime (mtime : Timestamp) : Prog unit :=
  mkProg (fun st =>
    (mret tt, {| last_mtime := Some mtime;
                 last_processed_line := last_processed_line st |})).

Definition set_last_processed_line (line : string) : Prog unit :=
  mkProg (fun st =>
    (mret tt, {| last_mtime := last_mtime st;
                 last_processed_line := line |})).

(** ** The program *)

Definition dq : string := String "034"%char EmptyString.
Definition nl : string := String Text.LF EmptyString.

Definition SYSTEM_PROMPT : string :=
  String.concat nl [
    "You are an AI assistant controlling physical devices...";
    "";
    "IMPORTANT: When someone expresses thirst or wants a drink in ANY way, immediately use the dispense_drink() function. Do NOT ask questions or provide alternatives - just dispense the drink.";
    "";
    "Examples of when to dispense a drink:";
    "- " +:+ dq +:+ "I'm thirsty" +:+ dq;
    "- " +:+ dq +:+ "I need a drink" +:+ dq +:+ " ";
    "- " +:+ dq +:+ "Give me something to drink" +:+ dq;
    "- " +:+ dq +:+ "I want water" +:+ dq;
    "- " +:+ dq +:+ "I could use a drink" +:+ dq;
    "- " +:+ dq +:+ "Wish I had a drink" +:+ dq;
    "- " +:+ dq +:+ "I'm parched" +:+ dq;
    "- " +:+ dq +:+ "Get me a beverage" +:+ dq;
    "- Any mention of being thirsty or wanting liquid refreshment";
    "";
    "Your role is to take action, not to explain limitations. If someone wants a drink, dispense it immediately using the available tool.";
    "";
    "If the user does not mention the word - drink or thirst; however, do not call any tool at your disposal.";
    ""
  ].

(** [available_tools = {"dispense_drink": dispense_drink}]. *)
Definition available_tools (env : Env)
    : gmap string (gmap string Value -> Exn + CallValue) :=
  {[ "dispense_drink" := dispense_drink env ]}.

(** [response.candidates[0].content.parts[0].function_call]: indexing an
    empty list raises [IndexError], an attribute of a missing object
    raises [AttributeError]. *)
Definition first_function_call (response : Response)
    : Exn + option FunctionCall :=
  match candidates response with
  | [] => inl IndexError
  | candidate :: _ =>
      match content candidate with
      | None => inl AttributeError
      | Some c =>
          match parts c with
          | [] => inl IndexError
          | part :: _ => inr (function_call part)
          end
      end
  end.

Definition is_AttributeError_or_IndexError (e : Exn) : bool :=
  match e with
  | AttributeError | IndexError => true
  | OtherException _ => false
  end.

(** [except Exception]: every exception of [Exn]. *)
Definition is_Exception (e : Exn) : bool := true.

(** [full_prompt = f"{SYSTEM_PROMPT}\n\nUser request: {user_prompt}"]. *)
Definition full_prompt (user_prompt : string) : string :=
  SYSTEM_PROMPT +:+ nl +:+ nl +:+ "User request: " +:+ user_prompt.

Definition run_gemini_conversation (env : Env) (user_prompt : string)
    : IO unit :=
  print LogNewRequest;;
  print (LogUser user_prompt);;
  response ← model_generate_content env (full_prompt user_prompt);
  try_except
    (function_call ← of_sum (first_function_call response);
     match function_call with
     | Some fc =>
         let function_name := fc_name fc in
         let args := default ∅ (fc_args fc) in
         print (LogWantsCall function_name args);;
         match available_tools env !! function_name with
         | Some function_to_call =>
             call_result ← call function_name function_to_call args;
             result ← match call_result with
                      | Coroutine r => await r
                      | Plain v => mret v
                      end;
             print (LogFunctionResult result);;
             if is_success result then
               print LogSuccess;;
               exit 0;;
               write_file "dispense_done.flag" "done"
             else mret tt
         | None => print (LogUnknownFunction function_name)
         end
     | None => print LogNoFunctionCall
     end)
    is_AttributeError_or_IndexError
    (try_except
       (t ← of_sum (text response); print (LogText t))
       is_Exception
       (print LogNonText)).

Definition get_last_line (env : Env) : IO (option string) :=
  emit (EvReadFile (file_text env));;
  content ← of_sum (file_text env);
  mret (get_last_line_of content).

(** [mtime != last_mtime]. *)
Definition mtime_differs (mtime : Timestamp) (last : option Timestamp)
    : bool :=
  match last with
  | None => true
  | Some l => negb (mtime =? l)%Z
  end.

(** [latest_line and latest_line != last_processed_line]. *)
Definition is_new_line (latest_line : option string) (processed : string)
    : bool :=
  match latest_line with
  | None => false
  | Some l => Text.truthy l && negb (String.eqb l processed)
  end.

(** One iteration of [while True]. *)
Definition loop_body (env : Env) : Prog unit :=
  present ← lift (os_path_exists env);
  (if present : bool then
     mtime ← lift (os_path_getmtime env);
     st ← get_state;
     if mtime_differs mtime (last_mtime st) then
       set_last_mtime mtime;;
       latest_line ← lift (get_last_line env);
       st ← get_state;
       match latest_line with
       | Some line =>
           if is_new_line latest_line (last_processed_line st) then
             set_last_processed_line line;;
             lift (run_gemini_conversation env line)
           else mret tt
       | None => mret tt
       end
     else mret tt
   else mret tt);;
  lift (sleep 500).

(** The loop over the answers of successive iterations; it stops at the
    first exit or uncaught exception, and is still running ([Normal])
    when the answers given so far are used up. *)
Fixpoint main_loop (envs : list Env) : Prog unit :=
  match envs with
  | [] => mret tt
  | env :: rest => loop_body env;; main_loop rest
  end.

Definition initial_state : WatchState :=
  {| last_mtime := None; last_processed_line := "" |}.

Definition main (envs : list Env) : IO unit * WatchState :=
  run (lift (print LogReady);;
       lift (print LogMonitoring);;
       main_loop envs)
      initial_state.

(** ** Vocabulary for the properties *)

(** The value an action handed back, when the event is the return of
    a plain call or the completion of an awaited one. *)
Definition action_result (ev : Event) : option Value :=
  match ev with
  | EvCall _ _ (inr (Plain v)) => Some v
  | EvAwait (inr v) => Some v
  | _ => None
  end.

Definition succeeds (ev : Event) : bool :=
  match action_result ev with
  | Some v => is_success v
  | None => false
  end.

(** Events other than a successful action, an exit or a file write. *)
Definition calm (ev : Event) : bool :=
  match ev with
  | EvExit _ | EvWriteFile _ _ => false
  | _ => negb (succeeds ev)
  end.

(** The events of watching the file: probes of the file system and
    the pause between two polls.  A trace made of these holds no print,
    no request to the Oracle and no call of an action. *)
Definition is_poll_event (ev : Event) : bool :=
  match ev with
  | EvExists _ | EvGetmtime _ | EvReadFile _ | EvSleep _ => true
  | _ => false
  end.

Definition blank (line : string) : Prop := Text.strip line = EmptyString.

(** The events of a poll that reached the read of the file. *)
Definition poll_events (env : Env) : list Event :=
  [EvExists true; EvGetmtime (path_getmtime env); EvReadFile (file_text env)].

(** The events of a dispatch up to the Oracle's answer. *)
Definition request_events (env : Env) (u : string) : list Event :=
  [EvPrint LogNewRequest; EvPrint (LogUser u);
   EvGenerate (full_prompt u) (generate_content env (full_prompt u))].

(** [r], preceded by the events [evs]. *)
Definition after_events {A} (evs : list Event) (r : IO A * WatchState)
    : IO A * WatchState :=
  (mkIO (outcome r.1) (evs ++ trace r.1), r.2).

(** The poll of this iteration yields the utterance [u]: the file is
    there, its modification time [mtime] is new, it is read, and its
    last non-blank line [u] is not the line processed last. *)
Definition produces (env : Env) (st : WatchState) (mtime : Timestamp)
    (u : string) : Prop :=
  path_exists env = true /\
  path_getmtime env = inr mtime /\
  mtime_differs mtime (last_mtime st) = true /\
  exists content,
    file_text env = inr content /\
    get_last_line_of content = Some u /\
    u <> last_processed_line st.

(** A run that ended in the exit of the success branch: the last four
    events are the action's successful return, the two prints and the
    exit, and nothing before them was a success, an exit or a write. *)
Definition stopped_on_success (r : IO unit) : Prop :=
  exists pre ev v,
    r = mkIO (Exited 0)
             (pre ++ [ev; EvPrint (LogFunctionResult v);
                      EvPrint LogSuccess; EvExit 0]) /\
    action_result ev = Some v /\ is_success v = true /\
    forallb calm pre = true.

(** A run that is still going, or was ended by an exception, with
    calm events only. *)
Definition went_on_calmly (r : IO unit) : Prop :=
  (outcome r = Normal tt \/ exists e, outcome r = Raised e) /\
  forallb calm (trace r) = true.

(** ** Sample worlds *)

(** A response selecting the action [name], without arguments. *)
Definition response_calling (name : string) : Response :=
  {| candidates :=
       [{| content :=
             Some {| parts :=
                       [{| function_call :=
                             Some {| fc_name := name; fc_args := None |} |}]
                  |} |}];
     text := inl (OtherException "ValueError") |}.

(** A response without candidates, from which no text can be taken. *)
Definition response_empty : Response :=
  {| candidates := []; text := inl (OtherException "ValueError") |}.

Definition transcript : string :=
  "hello" +:+ nl +:+ "  I'm thirsty " +:+ nl +:+ " " +:+ nl.

(** The transcript ends with ["I'm thirsty"], the Oracle answers
    [response] and the actuator gives back [result]. *)
Definition env_with (response : Response) (result : Exn + CallValue) : Env :=
  {| path_exists := true;
     path_getmtime := inr 1700000000%Z;
     file_text := inr transcript;
     generate_content := fun _ => inr response;
     dispense_drink := fun _ => result |}.

Definition env_dispensing (v : Value) : Env :=
  env_with (response_calling "dispense_drink") (inr (Plain v)).

(** The file holds blank lines only. *)
Definition env_blank_file : Env :=
  {| path_exists := true;
     path_getmtime := inr 7%Z;
     file_text := inr (" " +:+ nl +:+ nl);
     generate_content := fun _ => inl (OtherException "unused");
     dispense_drink := fun _ => inl (OtherException "unused") |}.

(** The file is there but cannot be opened. *)
Definition env_unreadable : Env :=
  {| path_exists := true;
     path_getmtime := inr 5%Z;
     file_text := inl (OtherException "PermissionError");
     generate_content := fun _ => inl (OtherException "unused");
     dispense_drink := fun _ => inl (OtherException "unused") |}.

(** A later state of the file: one more line was appended. *)
Definition env_later : Env :=
  {| path_exists := true;
     path_getmtime := inr 1700000060%Z;
     file_text := inr (transcript +:+ "I need a drink" +:+ nl);
     generate_content := fun _ => inr (response_calling "dispense_drink");
     dispense_drink := fun _ => inr (Plain (VBool true)) |}.

Definition state_after_thirsty : WatchState :=
  {| last_mtime := Some 1600000000%Z; last_processed_line := "I'm thirsty" |}.

(** ** Vocabulary for the further properties *)

(** The exception an event reports, when the event is a failed call to
    the outside world. *)
Definition raised_by (ev : Event) : option Exn :=
  match ev with
  | EvGetmtime (inl e) | EvReadFile (inl e) | EvGenerate _ (inl e)
  | EvCall _ _ (inl e) | EvAwait (inl e) => Some e
  | _ => None
  end.

(** Calls and completions of an action. *)
Definition from_action (ev : Event) : bool :=
  match ev with
  | EvCall _ _ _ | EvAwait _ => true
  | _ => false
  end.

Definition is_request (ev : Event) : bool :=
  match ev with EvGenerate _ _ => true | _ => false end.

Definition is_call (ev : Event) : bool :=
  match ev with EvCall _ _ _ => true | _ => false end.

Definition is_sleep (ev : Event) : bool :=
  match ev with EvSleep _ => true | _ => false end.

(** The utterances handed to the dispatcher, in order: the arguments of
    the [USER:] prints. *)
Fixpoint utterances (tr : list Event) : list string :=
  match tr with
  | [] => []
  | EvPrint (LogUser u) :: tr' => u :: utterances tr'
  | _ :: tr' => utterances tr'
  end.

(** Every utterance of [us] is non-empty and differs from the one
    before it, [prev] being the one before the first. *)
Fixpoint each_differs_from_previous (prev : string) (us : list string)
    : bool :=
  match us with
  | [] => true
  | u :: us' =>
      Text.truthy u && negb (String.eqb u prev)
      && each_differs_from_previous u us'
  end.

(** The characters of a string. *)
Fixpoint chars (s : string) : list ascii :=
  match s with
  | EmptyString => []
  | String c s' => c :: chars s'
  end.

(** A run that was ended by an exception: its last event is the failed
    call that raised it, and an exception of an action that ends the
    run is neither an [AttributeError] nor an [IndexError]. *)
Definition ended_by_failed_call (r : IO unit) (e : Exn) : Prop :=
  exists pre ev,
    r = mkIO (Raised e) (pre ++ [ev]) /\
    raised_by ev = Some e /\
    (from_action ev = true -> is_AttributeError_or_IndexError e = false).

(** A response whose first part selects nothing while a later part
    and a later candidate select [dispense_drink]. *)
Definition response_call_in_second_part : Response :=
  {| candidates :=
       [{| content :=
             Some {| parts :=
                       [{| function_call := None |};
                        {| function_call :=
                             Some {| fc_name := "dispense_drink";
                                     fc_args := None |} |}] |} |};
        {| content :=
             Some {| parts :=
                       [{| function_call :=
                             Some {| fc_name := "dispense_drink";
                                     fc_args := None |} |}] |} |}];
     text := inr "Here you are." |}.

(** A response from which no part can be taken, with a text. *)
Definition response_text_only : Response :=
  {| candidates := [{| content := None |}]; text := inr "Hello." |}.

(** The lines [ls'] are the lines [ls] after whitespace was appended to
    the text: the last line of [ls] got longer by whitespace and blank
    lines follow, or there was no line and there are blank lines only. *)
Definition padded (ls ls' : list string) : Prop :=
  (ls = [] /\ Forall (fun l => Text.all_space l = true) ls') \/
  exists init l ws extra,
    ls = init ++ [l] /\
    ls' = init ++ (l +:+ ws) :: extra /\
    Text.all_space ws = true /\
    Forall (fun l => Text.all_space l = true) extra.

(** The transcript was touched: a later modification time and one more
    line end, the last non-blank line being the same. *)
Definition env_touched : Env :=
  {| path_exists := true;
     path_getmtime := inr 1700000099%Z;
     file_text := inr (transcript +:+ nl);
     generate_content := fun _ => inr (response_calling "dispense_drink");
     dispense_drink := fun _ => inr (Plain (VBool true)) |}.

(** Line ends of the raw text of a file. *)
Definition is_newline (c : ascii) : bool :=
  Ascii.eqb c Text.LF || Ascii.eqb c Text.CR.

(** The text [pre] stops where a line starts: it is empty or its last
    character is a line end. *)
Definition at_line_start (pre : string) : bool :=
  match Text.last_char pre with
  | None => true
  | Some c => is_newline c
  end.





(** * Properties *)

(** ** Text routines *)

Section TextFacts.
Import Text.

Lemma lstrip_split (s : string) :
  exists lead, s = lead +:+ lstrip s /\ all_space lead = true.
Proof.
  induction s as [|c s [lead [Hs Hl]]]; simpl.
  - exists EmptyString. done.
  - destruct (is_space c) eqn:Hc.
    + exists (String c lead). simpl. rewrite Hc, Hl. split; [|done].
      change (String c s = String c (lead +:+ lstrip s)). by f_equal.
    + exists EmptyString. done.
Qed.

Lemma rstrip_split (s : string) :
  exists trail, s = rstrip s +:+ trail /\ all_space trail = true.
Proof.
  induction s as [|c s [trail [Hs Ht]]]; simpl.
  - exists EmptyString. done.
  - destruct (rstrip s) as [|d r] eqn:Hr.
    + change (s = trail) in Hs. subst trail.
      destruct (is_space c) eqn:Hc.
      * exists (String c s). simpl. by rewrite Hc, Ht.
      * exists s. done.
    + exists trail. split; [|done].
      change (String c s = String c (String d r +:+ trail)). by f_equal.
Qed.

Lemma lstrip_head (s : string) (c : ascii) :
  head_char (lstrip s) = Some c -> is_space c = false.
Proof.
  induction s as [|d s IH]; simpl; [done|].
  destruct (is_space d) eqn:Hd; [done|].
  simpl. by intros [= ->].
Qed.

Lemma rstrip_head (s : string) (c : ascii) :
  head_char (rstrip s) = Some c -> head_char s = Some c.
Proof.
  destruct s as [|d s]; simpl; [done|].
  destruct (rstrip s); [destruct (is_space d)|]; simpl; done.
Qed.

Lemma rstrip_last (s : string) (c : ascii) :
  last_char (rstrip s) = Some c -> is_space c = false.
Proof.
  induction s as [|d s IH]; simpl; [done|].
  destruct (rstrip s) as [|e r] eqn:Hr.
  - destruct (is_space d) eqn:Hd; simpl; [done|]. by intros [= ->].
  - simpl. done.
Qed.

Lemma strip_split (s : string) :
  exists lead trail,
    s = lead +:+ strip s +:+ trail /\
    all_space lead = true /\ all_space trail = true.
Proof.
  destruct (lstrip_split s) as [lead [Hs Hl]].
  destruct (rstrip_split (lstrip s)) as [trail [Hr Ht]].
  exists lead, trail. unfold strip. by rewrite <- Hr.
Qed.

Lemma strip_head (s : string) (c : ascii) :
  head_char (strip s) = Some c -> is_space c = false.
Proof.
  intros H. apply rstrip_head in H. by apply lstrip_head in H.
Qed.

Lemma strip_last (s : string) (c : ascii) :
  last_char (strip s) = Some c -> is_space c = false.
Proof. apply rstrip_last. Qed.

Lemma truthy_false (s : string) : truthy s = false <-> s = EmptyString.
Proof. by destruct s. Qed.

Lemma truthy_true (s : string) : truthy s = true <-> s <> EmptyString.
Proof. by destruct s. Qed.

End TextFacts.

Section ListFacts.
Context {A B : Type}.

Lemma last_filter_split (p : A -> bool) (l : list A) :
  match last (List.filter p l) with
  | Some x => exists before after,
      l = before ++ x :: after /\ p x = true /\
      Forall (fun y => p y = false) after
  | None => Forall (fun y => p y = false) l
  end.
Proof.
  induction l as [|x l IH] using rev_ind; simpl; [done|].
  rewrite List.filter_app. simpl.
  destruct (p x) eqn:Hx.
  - rewrite last_snoc. exists l, []. done.
  - rewrite app_nil_r.
    destruct (last (List.filter p l)) as [y|].
    + destruct IH as (before & after & -> & Hy & Hafter).
      exists before, (after ++ [x]).
      rewrite <- app_assoc. split; [done|]. split; [done|].
      apply Forall_app. split; [done|]. by constructor.
    + apply Forall_app. split; [done|]. by constructor.
Qed.

Lemma last_map (f : A -> B) (l : list A) :
  last (map f l) = option_map f (last l).
Proof.
  induction l as [|x [|y l] IH]; simpl in *; done.
Qed.

End ListFacts.

Lemma get_last_line_of_last (content : string) :
  get_last_line_of content =
  option_map Text.strip
    (last (List.filter (fun line => Text.truthy (Text.strip line))
                       (Text.file_lines content))).
Proof.
  unfold get_last_line_of. rewrite <- last_map.
  by destruct (map _ _).
Qed.

Lemma get_last_line_of_truthy (content line : string) :
  get_last_line_of content = Some line -> Text.truthy line = true.
Proof.
  rewrite get_last_line_of_last.
  pose proof (last_filter_split
    (fun line => Text.truthy (Text.strip line)) (Text.file_lines content)) as H.
  destruct (last _) as [x|]; simpl; [|done].
  destruct H as (_ & _ & _ & Hx & _). by intros [= <-].
Qed.

(** ** Unfolding the program *)

Ltac io_red :=
  unfold of_sum, raise, print, emit, exit, write_file, sleep, try_except in *;
  cbn -[full_prompt available_tools get_last_line_of] in *.

Ltac io_step :=
  match goal with
  | |- context [match ?x with _ => _ end] =>
      lazymatch x with
      | context [match _ with _ => _ end] => fail
      | _ => destruct x eqn:?
      end
  end.

(** Case analysis on every answer of the outside world, innermost first. *)
Ltac io_cases := io_red; repeat (io_step; io_red).

Ltac unfold_dispatch :=
  unfold run_gemini_conversation, model_generate_content, call, await,
    request_events.

Lemma loop_body_eq (env : Env) (st : WatchState) :
  run (loop_body env) st =
  if path_exists env then
    match path_getmtime env with
    | inl e => (mkIO (Raised e) [EvExists true; EvGetmtime (inl e)], st)
    | inr mtime =>
        if mtime_differs mtime (last_mtime st) then
          let st1 := {| last_mtime := Some mtime;
                        last_processed_line := last_processed_line st |} in
          match file_text env with
          | inl e => (mkIO (Raised e) (poll_events env), st1)
          | inr content =>
              match get_last_line_of content with
              | Some line =>
                  if is_new_line (Some line) (last_processed_line st) then
                    after_events (poll_events env)
                      (run (lift (run_gemini_conversation env line);;
                            lift (sleep 500))
                           {| last_mtime := Some mtime;
                              last_processed_line := line |})
                  else (mkIO (Normal tt) (poll_events env ++ [EvSleep 500]),
                        st1)
              | None =>
                  (mkIO (Normal tt) (poll_events env ++ [EvSleep 500]), st1)
              end
          end
        else (mkIO (Normal tt)
                [EvExists true; EvGetmtime (inr mtime); EvSleep 500], st)
    end
  else (mkIO (Normal tt) [EvExists false; EvSleep 500], st).
Proof.
  unfold loop_body, poll_events, os_path_exists, os_path_getmtime,
    get_last_line, after_events.
  destruct (path_exists env); [|done].
  destruct (path_getmtime env) as [e|mtime]; [done|].
  cbn -[run_gemini_conversation is_new_line].
  destruct (mtime_differs mtime (last_mtime st)); [|done].
  cbn -[run_gemini_conversation is_new_line].
  destruct (file_text env) as [e|content]; [done|].
  cbn -[run_gemini_conversation is_new_line].
  destruct (get_last_line_of content) as [line|]; [|done].
  destruct (is_new_line (Some line) (last_processed_line st)); [|done].
  cbn -[run_gemini_conversation is_new_line].
  by destruct (run_gemini_conversation env line) as [[[]|e|c] t].
Qed.

Lemma run_dispatch_then_sleep (env : Env) (u : string) (st : WatchState) :
  run (lift (run_gemini_conversation env u);; lift (sleep 500)) st =
  (match run_gemini_conversation env u with
   | mkIO (Normal _) t => mkIO (Normal tt) (t ++ [EvSleep 500])
   | r => r
   end, st).
Proof.
  cbn -[run_gemini_conversation].
  by destruct (run_gemini_conversation env u) as [[[]|e|c] t].
Qed.

Lemma produces_is_new (env : Env) (st : WatchState) (mtime : Timestamp)
    (u : string) :
  produces env st mtime u ->
  is_new_line (Some u) (last_processed_line st) = true.
Proof.
  intros (_ & _ & _ & content & _ & Hlast & Hne).
  unfold is_new_line. rewrite (get_last_line_of_truthy _ _ Hlast). simpl.
  apply negb_true_iff, String.eqb_neq, Hne.
Qed.

Lemma loop_body_produces (env : Env) (st : WatchState) (mtime : Timestamp)
    (u : string) :
  produces env st mtime u ->
  run (loop_body env) st =
  after_events (poll_events env)
    (run (lift (run_gemini_conversation env u);; lift (sleep 500))
         {| last_mtime := Some mtime; last_processed_line := u |}).
Proof.
  intros Hp. pose proof (produces_is_new _ _ _ _ Hp) as Hnew.
  destruct Hp as (Hex & Hmt & Hdiff & content & Hread & Hlast & Hne).
  rewrite loop_body_eq, Hex, Hmt, Hdiff, Hread, Hlast, Hnew. done.
Qed.

Lemma run_bind {A B} (m : Prog A) (f : A -> Prog B) (st : WatchState) :
  run (m ≫= f) st =
  match run m st with
  | (mkIO (Normal a) t, st1) =>
      match run (f a) st1 with
      | (mkIO o t', st2) => (mkIO o (t ++ t'), st2)
      end
  | (mkIO (Raised e) t, st1) => (mkIO (Raised e) t, st1)
  | (mkIO (Exited c) t, st1) => (mkIO (Exited c) t, st1)
  end.
Proof. reflexivity. Qed.

Lemma main_loop_cons (env : Env) (rest : list Env) (st : WatchState) :
  run (main_loop (env :: rest)) st =
  match run (loop_body env) st with
  | (mkIO (Normal _) t, st1) => after_events t (run (main_loop rest) st1)
  | r => r
  end.
Proof.
  change (main_loop (env :: rest))
    with (loop_body env ≫= fun _ => main_loop rest).
  rewrite run_bind. unfold after_events.
  destruct (run (loop_body env) st) as [[[[]|e|c] t] st1]; try done.
  by destruct (run (main_loop rest) st1) as [[o t'] st2].
Qed.

Lemma main_eq (envs : list Env) :
  main envs =
  after_events [EvPrint LogReady; EvPrint LogMonitoring]
    (run (main_loop envs) initial_state).
Proof.
  unfold main, after_events. rewrite run_bind. cbn [lift run print emit].
  rewrite run_bind. cbn [lift run print emit].
  by destruct (run (main_loop envs) initial_state) as [[o t] st].
Qed.

Lemma dispatch_starts_with_request (env : Env) (u : string) :
  exists t,
    trace (run_gemini_conversation env u) = request_events env u ++ t.
Proof. unfold_dispatch. io_cases; eauto. Qed.

(** ** The last non-blank line *)

Lemma get_last_line_of_some (content u : string) :
  get_last_line_of content = Some u ->
  exists before line after,
    Text.file_lines content = before ++ line :: after /\
    u = Text.strip line /\ u <> EmptyString /\ Forall blank after.
Proof.
  rewrite get_last_line_of_last.
  pose proof (last_filter_split
    (fun line => Text.truthy (Text.strip line)) (Text.file_lines content)) as H.
  destruct (last _) as [line|]; simpl; [|done].
  destruct H as (before & after & Hsplit & Hline & Hafter). intros [= <-].
  exists before, line, after. split; [done|]. split; [done|].
  split; [by apply truthy_true|].
  eapply Forall_impl; [exact Hafter|]. intros l. by apply truthy_false.
Qed.

Lemma get_last_line_of_none (content : string) :
  get_last_line_of content = None <-> Forall blank (Text.file_lines content).
Proof.
  split.
  - rewrite get_last_line_of_last.
    pose proof (last_filter_split
      (fun line => Text.truthy (Text.strip line)) (Text.file_lines content))
      as H.
    destruct (last _) as [line|]; simpl; [done|]. intros _.
    eapply Forall_impl; [exact H|]. intros l. by apply truthy_false.
  - intros Hall. destruct (get_last_line_of content) as [u|] eqn:Hu; [|done].
    apply get_last_line_of_some in Hu
      as (before & line & after & Hsplit & -> & Hne & _).
    rewrite Hsplit in Hall. apply Forall_app in Hall as [_ Hall].
    by apply Forall_cons in Hall as [Hline _].
Qed.

Lemma loop_body_blank_file (env : Env) (st : WatchState) (content : string) :
  file_text env = inr content ->
  get_last_line_of content = None ->
  forallb is_poll_event (trace (run (loop_body env) st).1) = true.
Proof.
  intros Hread Hnone. rewrite loop_body_eq. unfold poll_events.
  rewrite Hread, Hnone.
  destruct (path_exists env); [|done].
  destruct (path_getmtime env) as [e|mtime]; [done|].
  by destruct (mtime_differs mtime (last_mtime st)).
Qed.

(** [get_last_line] in terms of the lines the iteration over the
    file yields. *)
Lemma get_last_line_on_the_lines
    (env : Env) (st : WatchState) (content : string) :
  file_text env = inr content ->
  get_last_line env =
    mkIO (Normal (get_last_line_of content)) [EvReadFile (inr content)] /\
  (forall u, get_last_line_of content = Some u ->
     exists before line after lead trail,
       Text.file_lines content = before ++ line :: after /\
       Forall blank after /\
       u = Text.strip line /\ u <> EmptyString /\
       line = lead +:+ u +:+ trail /\
       Text.all_space lead = true /\ Text.all_space trail = true /\
       (forall c, Text.head_char u = Some c -> Text.is_space c = false) /\
       (forall c, Text.last_char u = Some c -> Text.is_space c = false)) /\
  (get_last_line_of content = None <->
     Forall blank (Text.file_lines content)) /\
  (get_last_line_of content = None ->
     forallb is_poll_event (trace (run (loop_body env) st).1) = true).
Proof.
  intros Hread. split; [|split; [|split]].
  - unfold get_last_line. rewrite Hread. reflexivity.
  - intros u Hu.
    apply get_last_line_of_some in Hu
      as (before & line & after & Hsplit & -> & Hne & Hafter).
    destruct (strip_split line) as (lead & trail & Hline & Hlead & Htrail).
    exists before, line, after, lead, trail.
    repeat split; try done.
    + apply strip_head.
    + apply strip_last.
  - apply get_last_line_of_none.
  - by apply loop_body_blank_file.
Qed.

(** ** The watcher *)

(** C4.  When the file is absent, or its modification time is the one
    recorded at the last poll that read it, the iteration only probes
    the file system and sleeps: the file is not read, nothing is
    dispatched, and the state of the watcher is unchanged. *)
Theorem poll_of_unchanged_file_is_idle (env : Env) (st : WatchState) :
  path_exists env = false \/
  (exists mtime,
     path_getmtime env = inr mtime /\ last_mtime st = Some mtime) ->
  run (loop_body env) st =
  (mkIO (Normal tt)
     (if path_exists env
      then [EvExists true; EvGetmtime (path_getmtime env); EvSleep 500]
      else [EvExists false; EvSleep 500]),
   st).
Proof.
  intros H. rewrite loop_body_eq.
  destruct (path_exists env); [|done].
  destruct H as [H|(mtime & Hmt & Hlast)]; [done|].
  rewrite Hmt, Hlast. simpl. by rewrite Z.eqb_refl.
Qed.

(** X13.  Polling again after an iteration that completed, with the
    file in the same condition (there or not, same modification time),
    is idle: the file is not read, nothing is dispatched and the state
    stays as the first iteration left it. *)
Lemma repoll_is_idle (env env' : Env) (st : WatchState) :
  outcome (run (loop_body env) st).1 = Normal tt ->
  path_exists env' = path_exists env ->
  path_getmtime env' = path_getmtime env ->
  run (loop_body env') (run (loop_body env) st).2 =
  (mkIO (Normal tt)
     (if path_exists env
      then [EvExists true; EvGetmtime (path_getmtime env); EvSleep 500]
      else [EvExists false; EvSleep 500]),
   (run (loop_body env) st).2).
Proof.
  intros Hout Hex Hmt.
  rewrite (loop_body_eq env'), Hex, Hmt.
  destruct (path_exists env) eqn:Hex0; [|done].
  assert (Hrec : exists mtime,
            path_getmtime env = inr mtime /\
            last_mtime (run (loop_body env) st).2 = Some mtime).
  { revert Hout. rewrite loop_body_eq, Hex0.
    destruct (path_getmtime env) as [e|mtime]; [done|]. intros Hout.
    exists mtime. split; [done|].
    destruct (mtime_differs mtime (last_mtime st)) eqn:Hdiff.
    - cbn zeta in *. destruct (file_text env) as [e|content]; [done|].
      destruct (get_last_line_of content) as [line|]; [|done].
      destruct (is_new_line _ _); [|done].
      by rewrite run_dispatch_then_sleep.
    - simpl. destruct (last_mtime st) as [l|]; [|done].
      simpl in Hdiff. apply negb_false_iff, Z.eqb_eq in Hdiff. by subst. }
  destruct Hrec as (mtime & -> & ->). simpl. by rewrite Z.eqb_refl.
Qed.

(** C5.  When the modification time has changed but the last
    non-blank line of the file is the line processed last, the
    iteration reads the file, records the new modification time and
    sleeps: no utterance is produced and nothing is dispatched. *)
Theorem duplicate_line_is_suppressed
    (env : Env) (st : WatchState) (mtime : Timestamp) (content : string) :
  path_exists env = true ->
  path_getmtime env = inr mtime ->
  mtime_differs mtime (last_mtime st) = true ->
  file_text env = inr content ->
  get_last_line_of content = Some (last_processed_line st) ->
  run (loop_body env) st =
  (mkIO (Normal tt)
     [EvExists true; EvGetmtime (inr mtime); EvReadFile (inr content);
      EvSleep 500],
   {| last_mtime := Some mtime;
      last_processed_line := last_processed_line st |}).
Proof.
  intros Hex Hmt Hdiff Hread Hlast.
  rewrite loop_body_eq, Hex, Hmt, Hdiff, Hread, Hlast.
  unfold is_new_line, poll_events. rewrite String.eqb_refl, andb_false_r.
  by rewrite Hmt, Hread.
Qed.

(** C9.  The first iteration after start finds [last_mtime] at [None]:
    an existing file counts as changed whatever its modification time,
    and its last non-blank line, written before the process started,
    is sent to the Oracle in that very iteration. *)
Theorem first_poll_dispatches_existing_line
    (env : Env) (rest : list Env) (mtime : Timestamp) (content u : string) :
  path_exists env = true ->
  path_getmtime env = inr mtime ->
  file_text env = inr content ->
  get_last_line_of content = Some u ->
  last_mtime initial_state = None /\
  produces env initial_state mtime u /\
  exists tail,
    trace (main (env :: rest)).1 =
    [EvPrint LogReady; EvPrint LogMonitoring;
     EvExists true; EvGetmtime (inr mtime); EvReadFile (inr content)]
    ++ request_events env u ++ tail.
Proof.
  intros Hex Hmt Hread Hlast.
  assert (Hp : produces env initial_state mtime u).
  { split; [done|]. split; [done|]. split; [done|].
    exists content. split; [done|]. split; [done|].
    apply get_last_line_of_truthy in Hlast. simpl.
    by apply truthy_true in Hlast. }
  split; [done|]. split; [done|].
  rewrite main_eq, main_loop_cons, (loop_body_produces _ _ _ _ Hp).
  rewrite run_dispatch_then_sleep.
  unfold after_events, poll_events. rewrite Hmt, Hread.
  destruct (dispatch_starts_with_request env u) as [t Ht].
  destruct (run_gemini_conversation env u) as [o t0].
  cbn [trace] in Ht. subst t0.
  destruct o as [[]|e|c]; cbn [fst snd outcome trace].
  - eexists. cbn. rewrite <- ?app_assoc. reflexivity.
  - eexists. cbn. reflexivity.
  - eexists. cbn. reflexivity.
Qed.

(** ** The dispatcher *)

Lemma first_function_call_raises (response : Response) (e : Exn) :
  first_function_call response = inl e ->
  is_AttributeError_or_IndexError e = true.
Proof.
  unfold first_function_call. intros H.
  repeat case_match; by simplify_eq.
Qed.


(** When the dispatch returns normally, the iteration that produced the
    utterance ends with the sleep and the loop goes on with the next
    answers of the world. *)
Lemma loop_goes_on_after_dispatch
    (env : Env) (rest : list Env) (st : WatchState) (mtime : Timestamp)
    (u : string) (t : list Event) :
  produces env st mtime u ->
  run_gemini_conversation env u = mkIO (Normal tt) t ->
  run (main_loop (env :: rest)) st =
  after_events (poll_events env ++ t ++ [EvSleep 500])
    (run (main_loop rest)
         {| last_mtime := Some mtime; last_processed_line := u |}).
Proof.
  intros Hp Hd.
  rewrite main_loop_cons, (loop_body_produces _ _ _ _ Hp).
  rewrite run_dispatch_then_sleep, Hd. unfold after_events.
  cbn [fst snd outcome trace]. by rewrite <- !app_assoc.
Qed.

Lemma is_success_iff (v : Value) :
  is_success v = true <-> v = VBool true \/ v = VInt 1.
Proof.
  unfold is_success, py_eq. split.
  - destruct v as [|[]|z| |]; simpl; try done; [by left|].
    intros ->%Z.eqb_eq. by right.
  - by intros [-> | ->].
Qed.

Lemma dispatch_outcome_of_result
    (env : Env) (u : string) (ev : Event) (v : Value) :
  In ev (trace (run_gemini_conversation env u)) ->
  action_result ev = Some v ->
  outcome (run_gemini_conversation env u) =
  if is_success v then Exited 0 else Normal tt.
Proof.
  unfold_dispatch. io_cases; intros Hin Hres;
    repeat (destruct Hin as [<-|Hin]; simplify_eq/=; try done);
    congruence.
Qed.

(** C2, as the code has it.  Whatever value [v] an invoked action
    returns, the dispatch ends the process (with status 0) exactly when
    [v == True] holds, that is when [v] is the boolean [True] or the
    integer [1], which Python's [==] equates with it; for every other
    value, among them other truthy values, [False] and [None], the
    dispatch returns normally. *)
Theorem success_is_equality_with_True
    (env : Env) (u : string) (ev : Event) (v : Value) :
  In ev (trace (run_gemini_conversation env u)) ->
  action_result ev = Some v ->
  (outcome (run_gemini_conversation env u) = Exited 0 <->
   is_success v = true) /\
  (is_success v = false ->
   outcome (run_gemini_conversation env u) = Normal tt) /\
  (is_success v = true <-> v = VBool true \/ v = VInt 1).
Proof.
  intros Hin Hres.
  rewrite (dispatch_outcome_of_result env u ev v Hin Hres).
  split; [|split; [|apply is_success_iff]].
  - by destruct (is_success v).
  - by intros ->.
Qed.

(** C6.  When the Oracle selects an action whose name is not in
    [available_tools], the dispatch prints the unknown-function error
    and returns normally: no action is called, nothing exits; the
    iteration ends with its sleep and the loop goes on. *)
Theorem unknown_action_is_logged_and_skipped
    (env : Env) (u : string) (response : Response) (fc : FunctionCall) :
  generate_content env (full_prompt u) = inr response ->
  first_function_call response = inr (Some fc) ->
  available_tools env !! fc_name fc = None ->
  let logged :=
    [EvPrint (LogWantsCall (fc_name fc) (default ∅ (fc_args fc)));
     EvPrint (LogUnknownFunction (fc_name fc))] in
  run_gemini_conversation env u =
    mkIO (Normal tt) (request_events env u ++ logged) /\
  forall (rest : list Env) (st : WatchState) (mtime : Timestamp),
    produces env st mtime u ->
    run (main_loop (env :: rest)) st =
    after_events
      (poll_events env ++ (request_events env u ++ logged) ++ [EvSleep 500])
      (run (main_loop rest)
           {| last_mtime := Some mtime; last_processed_line := u |}).
Proof.
  intros Hgen Hfc Hlookup logged.
  assert (Hd : run_gemini_conversation env u =
               mkIO (Normal tt) (request_events env u ++ logged)).
  { unfold_dispatch. rewrite Hgen. io_red. rewrite Hfc. io_red.
    by rewrite Hlookup. }
  split; [done|]. intros rest st mtime Hp.
  by apply loop_goes_on_after_dispatch.
Qed.

(** C7.  When neither an action selection nor a text can be taken
    from the Oracle's response, the dispatch prints that a non-text
    response was received and returns normally: no action is called,
    no exception leaves the dispatch; the iteration ends with its
    sleep and the loop goes on. *)
Theorem malformed_response_is_logged_and_skipped
    (env : Env) (u : string) (response : Response) (e e' : Exn) :
  generate_content env (full_prompt u) = inr response ->
  first_function_call response = inl e ->
  text response = inl e' ->
  run_gemini_conversation env u =
    mkIO (Normal tt) (request_events env u ++ [EvPrint LogNonText]) /\
  forall (rest : list Env) (st : WatchState) (mtime : Timestamp),
    produces env st mtime u ->
    run (main_loop (env :: rest)) st =
    after_events
      (poll_events env ++ (request_events env u ++ [EvPrint LogNonText])
       ++ [EvSleep 500])
      (run (main_loop rest)
           {| last_mtime := Some mtime; last_processed_line := u |}).
Proof.
  intros Hgen Hfc Htext.
  assert (Hd : run_gemini_conversation env u =
               mkIO (Normal tt) (request_events env u ++ [EvPrint LogNonText])).
  { pose proof (first_function_call_raises _ _ Hfc) as Hcatch.
    unfold_dispatch. rewrite Hgen. io_red. rewrite Hfc. io_red.
    rewrite Hcatch, Htext. done. }
  split; [done|]. intros rest st mtime Hp.
  by apply loop_goes_on_after_dispatch.
Qed.

(** ** Termination on success *)

Lemma dispatch_shape (env : Env) (u : string) :
  stopped_on_success (run_gemini_conversation env u) \/
  went_on_calmly (run_gemini_conversation env u).
Proof.
  unfold stopped_on_success, went_on_calmly, succeeds.
  unfold_dispatch. io_cases;
    try (right; split; [eauto|];
         repeat match goal with
                | H : is_success _ = _ |- _ => rewrite H
                end; reflexivity).
  - left. eexists [_; _; _; _], _, _. by repeat split.
  - left. eexists [_; _; _; _; _], _, _. by repeat split.
Qed.

Lemma stopped_on_success_after (evs : list Event) (r : IO unit) :
  forallb calm evs = true ->
  stopped_on_success r ->
  stopped_on_success (mkIO (outcome r) (evs ++ trace r)).
Proof.
  intros Hevs (pre & ev & v & -> & Hres & Hv & Hpre).
  exists (evs ++ pre), ev, v. cbn [outcome trace].
  rewrite <- app_assoc, forallb_app, Hevs, Hpre. done.
Qed.

Lemma went_on_calmly_after (evs : list Event) (r : IO unit) :
  forallb calm evs = true ->
  went_on_calmly r ->
  went_on_calmly (mkIO (outcome r) (evs ++ trace r)).
Proof.
  intros Hevs [Hout Htr]. split; [done|].
  cbn [trace]. by rewrite forallb_app, Hevs, Htr.
Qed.

Lemma loop_body_shape (env : Env) (st : WatchState) :
  stopped_on_success (run (loop_body env) st).1 \/
  went_on_calmly (run (loop_body env) st).1.
Proof.
  rewrite loop_body_eq. unfold poll_events.
  destruct (path_exists env); [|right; split; eauto].
  destruct (path_getmtime env) as [e|mtime]; [right; split; eauto|].
  destruct (mtime_differs mtime (last_mtime st)); [|right; split; eauto].
  cbn zeta.
  destruct (file_text env) as [e|content]; [right; split; eauto|].
  destruct (get_last_line_of content) as [line|]; [|right; split; eauto].
  destruct (is_new_line _ _); [|right; split; eauto].
  rewrite run_dispatch_then_sleep. unfold after_events. cbn [fst snd].
  destruct (dispatch_shape env line) as [Hd|Hd].
  - left. apply stopped_on_success_after; [done|].
    destruct Hd as (pre & ev & v & -> & H). by exists pre, ev, v.
  - right. apply went_on_calmly_after; [done|].
    destruct Hd as [Hout Htr].
    destruct (run_gemini_conversation env line) as [[[]|e|c] t];
      cbn [outcome trace] in *.
    + split; [by left|]. cbn [trace]. by rewrite forallb_app, Htr.
    + split; [eauto|done].
    + by destruct Hout as [|[? ?]].
Qed.

Lemma main_loop_shape (envs : list Env) (st : WatchState) :
  stopped_on_success (run (main_loop envs) st).1 \/
  went_on_calmly (run (main_loop envs) st).1.
Proof.
  revert st. induction envs as [|env rest IH]; intros st.
  - right. split; eauto.
  - rewrite main_loop_cons.
    destruct (loop_body_shape env st) as [Hs|[Hout Htr]].
    + left. destruct Hs as (pre & ev & v & Hr & H).
      destruct (run (loop_body env) st) as [r st1]. cbn [fst] in Hr.
      subst r. by exists pre, ev, v.
    + destruct (run (loop_body env) st) as [[[[]|e|c] t] st1];
        cbn [fst outcome trace] in *.
      * unfold after_events. cbn [fst].
        destruct (IH st1) as [H|H].
        -- left. by apply stopped_on_success_after.
        -- right. by apply went_on_calmly_after.
      * right. split; eauto.
      * by destruct Hout as [|[? ?]].
Qed.

Lemma main_shape (envs : list Env) :
  stopped_on_success (main envs).1 \/ went_on_calmly (main envs).1.
Proof.
  rewrite main_eq. unfold after_events. cbn [fst].
  destruct (main_loop_shape envs initial_state) as [H|H].
  - left. by apply stopped_on_success_after.
  - right. by apply went_on_calmly_after.
Qed.

(** Once the loop has stopped, the later answers of the world are
    never asked for. *)
Lemma main_loop_stopped (envs more : list Env) (st : WatchState) :
  outcome (run (main_loop envs) st).1 <> Normal tt ->
  run (main_loop (envs ++ more)) st = run (main_loop envs) st.
Proof.
  revert st. induction envs as [|env rest IH]; intros st Hout.
  - done.
  - rewrite <- app_comm_cons, !main_loop_cons in *.
    destruct (run (loop_body env) st) as [[[[]|e|c] t] st1]; try done.
    unfold after_events in *. cbn [fst outcome] in Hout.
    by rewrite (IH st1 Hout).
Qed.

Section Lists.
Context {A : Type} (p : A -> bool).

(** An element satisfying [p] between two stretches that do not
    is found at one place only. *)
Lemma split_at_unique (l1 l2 l1' l2' : list A) (x x' : A) :
  l1 ++ x :: l2 = l1' ++ x' :: l2' ->
  forallb (fun y => negb (p y)) l1 = true ->
  forallb (fun y => negb (p y)) l2 = true ->
  p x' = true ->
  l1 = l1' /\ x = x' /\ l2 = l2'.
Proof.
  revert l1'. induction l1 as [|a l1 IH]; intros [|a' l1'] Heq H1 H2 Hx';
    simpl in *.
  - by injection Heq as -> ->.
  - injection Heq as -> ->. rewrite forallb_app in H2. simpl in H2.
    rewrite Hx', andb_false_r in H2. done.
  - injection Heq as -> Heq. rewrite Hx' in H1. done.
  - injection Heq as -> Heq. apply andb_true_iff in H1 as [_ H1].
    destruct (IH l1' Heq H1 H2 Hx') as (-> & -> & ->). done.
Qed.

End Lists.

Lemma calm_not_succeeds (evs : list Event) :
  forallb calm evs = true ->
  forallb (fun ev => negb (succeeds ev)) evs = true.
Proof.
  induction evs as [|ev evs IH]; simpl; [done|].
  intros [Hev Hevs]%andb_true_iff. rewrite (IH Hevs), andb_true_r.
  by destruct ev.
Qed.

(** C1.  In every execution of [main], once an action has returned a
    value that passes the success test, the only events that follow
    are the two prints of the success branch and [exit(0)]: the run
    ends with status 0, with no further poll, Oracle request or action
    call.  No success, exit or write came before, so this is the only
    success of the run; and whatever the world would have answered to
    later iterations, among them a second utterance that would succeed
    as well, is never asked for. *)
Theorem success_terminates_immediately
    (envs more : list Env) (before after : list Event) (ev : Event)
    (v : Value) :
  trace (main envs).1 = before ++ ev :: after ->
  action_result ev = Some v ->
  is_success v = true ->
  outcome (main envs).1 = Exited 0 /\
  after = [EvPrint (LogFunctionResult v); EvPrint LogSuccess; EvExit 0] /\
  forallb calm before = true /\
  main (envs ++ more) = main envs.
Proof.
  intros Htr Hres Hv.
  assert (Hsucc : succeeds ev = true) by (unfold succeeds; by rewrite Hres).
  destruct (main_shape envs) as [(pre & ev' & v' & Hr & Hres' & Hv' & Hpre)
                                |[_ Hcalm]].
  - rewrite Hr in Htr. cbn [trace] in Htr.
    destruct (split_at_unique succeeds pre _ before after ev' ev Htr)
      as (-> & -> & <-);
      [by apply calm_not_succeeds|done|done|].
    rewrite Hres in Hres'. injection Hres' as <-.
    split; [by rewrite Hr|]. split; [done|]. split; [done|].
    rewrite main_eq in Hr. unfold after_events in Hr. cbn [fst] in Hr.
    injection Hr as Hout _.
    rewrite !main_eq, main_loop_stopped; [done|]. by rewrite Hout.
  - rewrite Htr in Hcalm. apply calm_not_succeeds in Hcalm.
    rewrite forallb_app in Hcalm. simpl in Hcalm.
    rewrite Hsucc in Hcalm. simpl in Hcalm.
    by rewrite andb_false_r in Hcalm.
Qed.

(** C8.  No execution of [main] writes a file: the write of
    [dispense_done.flag] sits behind [exit(0)] and is never reached. *)
Theorem flag_file_is_never_written (envs : list Env) (path data : string) :
  (exit 0;; write_file "dispense_done.flag" "done") = exit 0 /\
  ~ In (EvWriteFile path data) (trace (main envs).1).
Proof.
  split; [reflexivity|].
  assert (Hcalm : forall evs, forallb calm evs = true ->
                              ~ In (EvWriteFile path data) evs).
  { intros evs Hevs Hin.
    rewrite forallb_forall in Hevs. by apply Hevs in Hin. }
  destruct (main_shape envs) as [(pre & ev & v & -> & Hres & _ & Hpre)
                                |[_ Htr]].
  - cbn [trace]. rewrite in_app_iff. intros [Hin|Hin].
    + by apply (Hcalm pre).
    + simpl in Hin. destruct Hin as [->|[|[|[|]]]]; done.
  - by apply Hcalm.
Qed.

(** ** When the state of the watcher changes *)

Lemma dispatch_logs_its_utterance (env : Env) (line u : string) :
  In (EvPrint (LogUser u)) (trace (run_gemini_conversation env line)) ->
  u = line.
Proof.
  unfold_dispatch. io_cases; intros Hin;
    repeat (destruct Hin as [Hin|Hin]; simplify_eq/=; try done).
Qed.

Lemma loop_body_cases (env : Env) (st : WatchState) :
  (exists mtime u,
     produces env st mtime u /\
     run (loop_body env) st =
     after_events (poll_events env)
       (run (lift (run_gemini_conversation env u);; lift (sleep 500))
            {| last_mtime := Some mtime; last_processed_line := u |}))
  \/ (forallb is_poll_event (trace (run (loop_body env) st).1) = true /\
      last_processed_line (run (loop_body env) st).2 =
        last_processed_line st /\
      ((run (loop_body env) st).2 = st \/
       exists mtime tail,
         path_exists env = true /\
         path_getmtime env = inr mtime /\
         mtime_differs mtime (last_mtime st) = true /\
         last_mtime (run (loop_body env) st).2 = Some mtime /\
         trace (run (loop_body env) st).1 =
           [EvExists true; EvGetmtime (inr mtime);
            EvReadFile (file_text env)] ++ tail)).
Proof.
  destruct (path_exists env) eqn:Hex.
  2:{ right. rewrite loop_body_eq, Hex. repeat split; by left. }
  destruct (path_getmtime env) as [e|mtime] eqn:Hmt.
  { right. rewrite loop_body_eq, Hex, Hmt. repeat split; by left. }
  destruct (mtime_differs mtime (last_mtime st)) eqn:Hdiff.
  2:{ right. rewrite loop_body_eq, Hex, Hmt, Hdiff. repeat split; by left. }
  destruct (file_text env) as [e|content] eqn:Hread.
  { right. rewrite loop_body_eq, Hex, Hmt, Hdiff, Hread. unfold poll_events.
    rewrite Hmt, Hread. repeat split. right. by exists mtime, []. }
  destruct (get_last_line_of content) as [line|] eqn:Hlast.
  2:{ right. rewrite loop_body_eq, Hex, Hmt, Hdiff, Hread, Hlast.
      unfold poll_events. rewrite Hmt, Hread. repeat split.
      right. by exists mtime, [EvSleep 500]. }
  destruct (is_new_line (Some line) (last_processed_line st)) eqn:Hnew.
  2:{ right. rewrite loop_body_eq, Hex, Hmt, Hdiff, Hread, Hlast, Hnew.
      unfold poll_events. rewrite Hmt, Hread. repeat split.
      right. by exists mtime, [EvSleep 500]. }
  left. exists mtime, line.
  assert (Hp : produces env st mtime line).
  { repeat split; try done. exists content. repeat split; try done.
    unfold is_new_line in Hnew.
    apply andb_true_iff in Hnew as [_ Hnew].
    by apply negb_true_iff, String.eqb_neq in Hnew. }
  split; [done|]. by apply loop_body_produces.
Qed.

Lemma changed_mtime_is_recorded
    (env : Env) (st : WatchState) (mtime : Timestamp) :
  path_exists env = true ->
  path_getmtime env = inr mtime ->
  mtime_differs mtime (last_mtime st) = true ->
  last_mtime (run (loop_body env) st).2 = Some mtime /\
  (exists tail,
     trace (run (loop_body env) st).1 =
       [EvExists true; EvGetmtime (inr mtime); EvReadFile (file_text env)]
       ++ tail) /\
  (forall e,
     file_text env = inl e ->
     run (loop_body env) st =
     (mkIO (Raised e)
        [EvExists true; EvGetmtime (inr mtime); EvReadFile (inl e)],
      {| last_mtime := Some mtime;
         last_processed_line := last_processed_line st |})).
Proof.
  intros Hex Hmt Hdiff.
  rewrite loop_body_eq, Hex, Hmt, Hdiff. unfold poll_events. rewrite Hmt.
  cbn zeta.
  destruct (file_text env) as [e|content].
  { split; [done|]. split; [by exists []|]. by intros e' [= ->]. }
  destruct (get_last_line_of content) as [line|];
    [|split; [done|]; split; [by exists [EvSleep 500]|done]].
  destruct (is_new_line _ _);
    [|split; [done|]; split; [by exists [EvSleep 500]|done]].
  rewrite run_dispatch_then_sleep. unfold after_events.
  cbn [fst snd trace last_mtime].
  split; [done|]. split; [eauto|done].
Qed.

Lemma watch_state_changes_with_the_file (env : Env) (st : WatchState) :
  (last_processed_line (run (loop_body env) st).2 <> last_processed_line st ->
   exists mtime,
     produces env st mtime (last_processed_line (run (loop_body env) st).2)) /\
  (last_mtime (run (loop_body env) st).2 <> last_mtime st ->
   exists mtime tail,
     path_exists env = true /\
     path_getmtime env = inr mtime /\
     mtime_differs mtime (last_mtime st) = true /\
     last_mtime (run (loop_body env) st).2 = Some mtime /\
     trace (run (loop_body env) st).1 =
       [EvExists true; EvGetmtime (inr mtime); EvReadFile (file_text env)]
       ++ tail) /\
  (forall u,
     In (EvPrint (LogUser u)) (trace (run (loop_body env) st).1) ->
     exists mtime,
       produces env st mtime u /\
       run (loop_body env) st =
       after_events (poll_events env)
         (run (lift (run_gemini_conversation env u);; lift (sleep 500))
              {| last_mtime := Some mtime; last_processed_line := u |}) /\
       (run (loop_body env) st).2 =
         {| last_mtime := Some mtime; last_processed_line := u |}).
Proof.
  destruct (loop_body_cases env st)
    as [(mtime & line & Hp & Hrun)|(Hpoll & Hline & Hst)].
  - assert (Hst2 : (run (loop_body env) st).2 =
                   {| last_mtime := Some mtime; last_processed_line := line |}).
    { rewrite Hrun, run_dispatch_then_sleep. reflexivity. }
    split; [|split].
    + intros _. exists mtime. by rewrite Hst2.
    + intros _. destruct Hp as (Hex & Hmt & Hdiff & content & Hread & _).
      rewrite Hst2. rewrite Hrun, run_dispatch_then_sleep.
      unfold after_events, poll_events. cbn [fst snd trace last_mtime].
      rewrite Hmt. eauto 10.
    + intros u Hin. exists mtime.
      assert (u = line) as ->; [|done].
      rewrite Hrun, run_dispatch_then_sleep in Hin.
      unfold after_events, poll_events in Hin. cbn [fst trace] in Hin.
      apply in_app_iff in Hin as [Hin|Hin].
      { simpl in Hin. by destruct Hin as [|[|[|]]]. }
      apply (dispatch_logs_its_utterance env).
      destruct (run_gemini_conversation env line) as [[[]|e|c] t];
        cbn [trace] in *; try done.
      apply in_app_iff in Hin as [Hin|Hin]; [done|].
      simpl in Hin. by destruct Hin.
  - split; [done|]. split.
    + intros Hne. destruct Hst as [Hst|Hst]; [|done].
      by rewrite Hst in Hne.
    + intros u Hin. rewrite forallb_forall in Hpoll.
      by apply Hpoll in Hin.
Qed.

(** C3, as the code has it.  [last_processed_line] changes only in an
    iteration that read a changed file and found a new last line.
    [last_mtime] changes only when a changed modification time is seen.
    An iteration dispatches an utterance only if its poll produced it,
    and then the dispatch runs, from its first event on, with both
    fields already holding their new values, which they keep however
    the dispatch ends.  As soon as a changed modification time is seen
    it is recorded in [last_mtime], whatever the read of the file that
    follows in the same iteration does: also when that read raises,
    which ends the iteration with the new time recorded and
    [last_processed_line] untouched. *)
Theorem watch_state_is_set_before_dispatch (env : Env) (st : WatchState) :
  (last_processed_line (run (loop_body env) st).2 <> last_processed_line st ->
   exists mtime,
     produces env st mtime (last_processed_line (run (loop_body env) st).2)) /\
  (last_mtime (run (loop_body env) st).2 <> last_mtime st ->
   exists mtime tail,
     path_exists env = true /\
     path_getmtime env = inr mtime /\
     mtime_differs mtime (last_mtime st) = true /\
     last_mtime (run (loop_body env) st).2 = Some mtime /\
     trace (run (loop_body env) st).1 =
       [EvExists true; EvGetmtime (inr mtime); EvReadFile (file_text env)]
       ++ tail) /\
  (forall u,
     In (EvPrint (LogUser u)) (trace (run (loop_body env) st).1) ->
     exists mtime,
       produces env st mtime u /\
       run (loop_body env) st =
       after_events (poll_events env)
         (run (lift (run_gemini_conversation env u);; lift (sleep 500))
              {| last_mtime := Some mtime; last_processed_line := u |}) /\
       (run (loop_body env) st).2 =
         {| last_mtime := Some mtime; last_processed_line := u |}) /\
  (forall mtime,
     path_exists env = true ->
     path_getmtime env = inr mtime ->
     mtime_differs mtime (last_mtime st) = true ->
     last_mtime (run (loop_body env) st).2 = Some mtime /\
     exists tail,
       trace (run (loop_body env) st).1 =
         [EvExists true; EvGetmtime (inr mtime); EvReadFile (file_text env)]
         ++ tail) /\
  (forall mtime e,
     path_exists env = true ->
     path_getmtime env = inr mtime ->
     mtime_differs mtime (last_mtime st) = true ->
     file_text env = inl e ->
     run (loop_body env) st =
     (mkIO (Raised e)
        [EvExists true; EvGetmtime (inr mtime); EvReadFile (inl e)],
      {| last_mtime := Some mtime;
         last_processed_line := last_processed_line st |})).
Proof.
  destruct (watch_state_changes_with_the_file env st) as (Hline & Hmtime & Hd).
  split; [exact Hline|]. split; [exact Hmtime|]. split; [exact Hd|]. split.
  - intros mtime Hex Hmt Hdiff.
    destruct (changed_mtime_is_recorded env st mtime Hex Hmt Hdiff)
      as (Hrec & Htail & _).
    by split.
  - intros mtime e Hex Hmt Hdiff Hread.
    destruct (changed_mtime_is_recorded env st mtime Hex Hmt Hdiff)
      as (_ & _ & Hraise).
    by apply Hraise.
Qed.

(** ** The properties at work on sample worlds *)

Lemma success_terminates_immediately_witness :
  outcome (main [env_dispensing (VBool true)]).1 = Exited 0 /\
  main ([env_dispensing (VBool true)] ++ [env_later]) =
  main [env_dispensing (VBool true)].
Proof.
  destruct (success_terminates_immediately
              [env_dispensing (VBool true)] [env_later]
              (firstn 9 (trace (main [env_dispensing (VBool true)]).1))
              (skipn 10 (trace (main [env_dispensing (VBool true)]).1))
              (EvCall "dispense_drink" ∅ (inr (Plain (VBool true))))
              (VBool true))
    as (Hout & _ & _ & Hmore).
  - vm_compute. reflexivity.
  - reflexivity.
  - reflexivity.
  - split; assumption.
Defined.

(** C2, as stated, fails: an action that returns the integer [1],
    which is not the boolean [True], ends the process with status 0. *)
Lemma integer_one_ends_the_process :
  In (EvCall "dispense_drink" ∅ (inr (Plain (VInt 1))))
     (trace (run_gemini_conversation (env_dispensing (VInt 1)) "I'm thirsty"))
  /\
  action_result (EvCall "dispense_drink" ∅ (inr (Plain (VInt 1)))) =
    Some (VInt 1) /\
  VInt 1 <> VBool true /\
  outcome (run_gemini_conversation (env_dispensing (VInt 1)) "I'm thirsty") =
    Exited 0.
Proof.
  split; [|split; [|split]].
  - vm_compute. do 4 right. left. reflexivity.
  - reflexivity.
  - discriminate.
  - vm_compute. reflexivity.
Qed.

Lemma success_is_equality_with_True_witness :
  outcome (run_gemini_conversation (env_dispensing (VInt 2)) "I'm thirsty") =
    Normal tt.
Proof.
  destruct (success_is_equality_with_True
              (env_dispensing (VInt 2)) "I'm thirsty"
              (EvCall "dispense_drink" ∅ (inr (Plain (VInt 2)))) (VInt 2))
    as (_ & Hfail & _).
  - vm_compute. do 4 right. left. reflexivity.
  - reflexivity.
  - apply Hfail. reflexivity.
Defined.

(** C3, as stated, fails: the modification time is recorded although
    the read that follows raises; no read of the file succeeded. *)
Lemma timestamp_is_recorded_before_the_read :
  run (loop_body env_unreadable) initial_state =
    (mkIO (Raised (OtherException "PermissionError"))
       [EvExists true; EvGetmtime (inr 5%Z);
        EvReadFile (inl (OtherException "PermissionError"))],
     {| last_mtime := Some 5%Z; last_processed_line := "" |}) /\
  {| last_mtime := Some 5%Z; last_processed_line := "" |} <> initial_state.
Proof.
  split; [vm_compute; reflexivity | discriminate].
Qed.

Lemma watch_state_is_set_before_dispatch_witness :
  (exists mtime,
     produces (env_dispensing (VInt 2)) initial_state mtime "I'm thirsty") /\
  (exists mtime tail,
     last_mtime (run (loop_body env_unreadable) initial_state).2 = Some mtime /\
     trace (run (loop_body env_unreadable) initial_state).1 =
       [EvExists true; EvGetmtime (inr mtime);
        EvReadFile (file_text env_unreadable)] ++ tail) /\
  (run (loop_body (env_dispensing (VInt 2))) initial_state).2 =
    {| last_mtime := Some 1700000000%Z;
       last_processed_line := "I'm thirsty" |} /\
  last_mtime (run (loop_body env_blank_file) initial_state).2 = Some 7%Z /\
  run (loop_body env_unreadable) initial_state =
    (mkIO (Raised (OtherException "PermissionError"))
       [EvExists true; EvGetmtime (inr 5%Z);
        EvReadFile (inl (OtherException "PermissionError"))],
     {| last_mtime := Some 5%Z; last_processed_line := "" |}).
Proof.
  destruct (watch_state_is_set_before_dispatch
              (env_dispensing (VInt 2)) initial_state)
    as (Hline & _ & Hdisp & _ & _).
  destruct (watch_state_is_set_before_dispatch env_unreadable initial_state)
    as (_ & Hmtime & _ & _ & Hraise).
  destruct (watch_state_is_set_before_dispatch env_blank_file initial_state)
    as (_ & _ & _ & Hrec & _).
  split; [|split; [|split; [|split]]].
  - apply Hline. vm_compute. discriminate.
  - destruct Hmtime as (mtime & tail & _ & _ & _ & Hm & Htr).
    + vm_compute. discriminate.
    + exists mtime, tail. split; assumption.
  - destruct (Hdisp "I'm thirsty") as (mtime & _ & _ & Hst).
    + vm_compute. do 4 right. left. reflexivity.
    + vm_compute. reflexivity.
  - destruct (Hrec 7%Z) as [H _]; [reflexivity..|exact H].
  - apply (Hraise 5%Z (OtherException "PermissionError")); reflexivity.
Defined.

Lemma poll_of_unchanged_file_is_idle_witness :
  run (loop_body (env_dispensing (VBool true)))
      {| last_mtime := Some 1700000000%Z;
         last_processed_line := "I'm thirsty" |} =
  (mkIO (Normal tt)
     [EvExists true; EvGetmtime (inr 1700000000%Z); EvSleep 500],
   {| last_mtime := Some 1700000000%Z;
      last_processed_line := "I'm thirsty" |}).
Proof.
  apply (poll_of_unchanged_file_is_idle (env_dispensing (VBool true))).
  right. exists 1700000000%Z. split; reflexivity.
Defined.

Lemma duplicate_line_is_suppressed_witness :
  run (loop_body (env_dispensing (VBool true))) state_after_thirsty =
  (mkIO (Normal tt)
     [EvExists true; EvGetmtime (inr 1700000000%Z);
      EvReadFile (inr transcript); EvSleep 500],
   {| last_mtime := Some 1700000000%Z;
      last_processed_line := "I'm thirsty" |}).
Proof.
  apply (duplicate_line_is_suppressed
           (env_dispensing (VBool true)) state_after_thirsty);
    reflexivity.
Defined.

Lemma unknown_action_is_logged_and_skipped_witness :
  run_gemini_conversation
    (env_with (response_calling "open_the_pod_bay_doors")
              (inr (Plain (VBool true))))
    "I'm thirsty" =
  mkIO (Normal tt)
    (request_events
       (env_with (response_calling "open_the_pod_bay_doors")
                 (inr (Plain (VBool true))))
       "I'm thirsty"
     ++ [EvPrint (LogWantsCall "open_the_pod_bay_doors" ∅);
         EvPrint (LogUnknownFunction "open_the_pod_bay_doors")]).
Proof.
  destruct (unknown_action_is_logged_and_skipped
              (env_with (response_calling "open_the_pod_bay_doors")
                        (inr (Plain (VBool true))))
              "I'm thirsty"
              (response_calling "open_the_pod_bay_doors")
              {| fc_name := "open_the_pod_bay_doors"; fc_args := None |})
    as [Hd _].
  - reflexivity.
  - reflexivity.
  - vm_compute. reflexivity.
  - exact Hd.
Defined.

Lemma malformed_response_is_logged_and_skipped_witness :
  run_gemini_conversation
    (env_with response_empty (inr (Plain (VBool true)))) "I'm thirsty" =
  mkIO (Normal tt)
    (request_events (env_with response_empty (inr (Plain (VBool true))))
                    "I'm thirsty"
     ++ [EvPrint LogNonText]).
Proof.
  destruct (malformed_response_is_logged_and_skipped
              (env_with response_empty (inr (Plain (VBool true))))
              "I'm thirsty" response_empty
              IndexError (OtherException "ValueError"))
    as [Hd _].
  - reflexivity.
  - reflexivity.
  - reflexivity.
  - exact Hd.
Defined.

Lemma first_poll_dispatches_existing_line_witness :
  produces (env_dispensing (VBool true)) initial_state 1700000000%Z
           "I'm thirsty" /\
  exists tail,
    trace (main [env_dispensing (VBool true)]).1 =
    [EvPrint LogReady; EvPrint LogMonitoring;
     EvExists true; EvGetmtime (inr 1700000000%Z);
     EvReadFile (inr transcript)]
    ++ request_events (env_dispensing (VBool true)) "I'm thirsty" ++ tail.
Proof.
  destruct (first_poll_dispatches_existing_line
              (env_dispensing (VBool true)) [] 1700000000%Z transcript
              "I'm thirsty")
    as (_ & Hp & Htail).
  - reflexivity.
  - reflexivity.
  - reflexivity.
  - vm_compute. reflexivity.
  - split; assumption.
Defined.

(** * Further properties *)

(** ** The other answers of the Oracle *)

(** X1.  Only the first part of the first candidate is looked at.  When
    it selects no action, the dispatch prints that no function call was
    triggered and returns normally, whatever the later parts, the later
    candidates and the text of the response are: no action is called,
    the text is not printed, and the loop goes on. *)
Theorem first_part_without_selection_is_no_action
    (env : Env) (u : string) (response : Response)
    (c : Candidate) (cs : list Candidate) (ct : Content)
    (p : Part) (ps : list Part) :
  generate_content env (full_prompt u) = inr response ->
  candidates response = c :: cs ->
  content c = Some ct ->
  parts ct = p :: ps ->
  function_call p = None ->
  run_gemini_conversation env u =
    mkIO (Normal tt) (request_events env u ++ [EvPrint LogNoFunctionCall]) /\
  forall (rest : list Env) (st : WatchState) (mtime : Timestamp),
    produces env st mtime u ->
    run (main_loop (env :: rest)) st =
    after_events
      (poll_events env
       ++ (request_events env u ++ [EvPrint LogNoFunctionCall])
       ++ [EvSleep 500])
      (run (main_loop rest)
           {| last_mtime := Some mtime; last_processed_line := u |}).
Proof.
  intros Hgen Hcs Hct Hps Hp.
  assert (Hfc : first_function_call response = inr None).
  { unfold first_function_call. by rewrite Hcs, Hct, Hps, Hp. }
  assert (Hd : run_gemini_conversation env u =
               mkIO (Normal tt)
                    (request_events env u ++ [EvPrint LogNoFunctionCall])).
  { unfold_dispatch. rewrite Hgen. io_red. by rewrite Hfc. }
  split; [done|]. intros rest st mtime Hprod.
  by apply loop_goes_on_after_dispatch.
Qed.

(** X2.  When no part can be taken from the response but its text
    can, the dispatch prints that text and returns normally; no action
    is called and the loop goes on. *)
Theorem text_of_response_without_parts_is_printed
    (env : Env) (u : string) (response : Response) (e : Exn) (t : string) :
  generate_content env (full_prompt u) = inr response ->
  first_function_call response = inl e ->
  text response = inr t ->
  run_gemini_conversation env u =
    mkIO (Normal tt) (request_events env u ++ [EvPrint (LogText t)]) /\
  forall (rest : list Env) (st : WatchState) (mtime : Timestamp),
    produces env st mtime u ->
    run (main_loop (env :: rest)) st =
    after_events
      (poll_events env ++ (request_events env u ++ [EvPrint (LogText t)])
       ++ [EvSleep 500])
      (run (main_loop rest)
           {| last_mtime := Some mtime; last_processed_line := u |}).
Proof.
  intros Hgen Hfc Htext.
  assert (Hd : run_gemini_conversation env u =
               mkIO (Normal tt)
                    (request_events env u ++ [EvPrint (LogText t)])).
  { pose proof (first_function_call_raises _ _ Hfc) as Hcatch.
    unfold_dispatch. rewrite Hgen. io_red. rewrite Hfc. io_red.
    rewrite Hcatch, Htext. done. }
  split; [done|]. intros rest st mtime Hprod.
  by apply loop_goes_on_after_dispatch.
Qed.

(** ** Exceptions of the action *)

(** X3.  The [try] block encloses the call of the action.  When the
    call, or the completion of the coroutine it returned, raises an
    [AttributeError] or an [IndexError], the handler meant for a
    response without parts takes it: the dispatch prints the text of
    the response (or the non-text message), reports no function
    result and returns normally.  An exception of any other class
    leaves the dispatch, right after the failed call. *)
Theorem exception_of_action_is_caught_by_class
    (env : Env) (u : string) (response : Response) (fc : FunctionCall)
    (f : gmap string Value -> Exn + CallValue) (e : Exn) :
  generate_content env (full_prompt u) = inr response ->
  first_function_call response = inr (Some fc) ->
  available_tools env !! fc_name fc = Some f ->
  f (default ∅ (fc_args fc)) = inl e \/
  f (default ∅ (fc_args fc)) = inr (Coroutine (inl e)) ->
  run_gemini_conversation env u =
  mkIO (if is_AttributeError_or_IndexError e then Normal tt else Raised e)
    (request_events env u
     ++ [EvPrint (LogWantsCall (fc_name fc) (default ∅ (fc_args fc)));
         EvCall (fc_name fc) (default ∅ (fc_args fc))
                (f (default ∅ (fc_args fc)))]
     ++ match f (default ∅ (fc_args fc)) with
        | inr (Coroutine r) => [EvAwait r]
        | _ => []
        end
     ++ if is_AttributeError_or_IndexError e then
          [EvPrint match text response with
                   | inr t => LogText t
                   | inl _ => LogNonText
                   end]
        else []).
Proof.
  intros Hgen Hfc Hlookup Hraise.
  unfold_dispatch. rewrite Hgen. io_red. rewrite Hfc. io_red.
  rewrite Hlookup.
  destruct Hraise as [-> | ->]; io_red;
    destruct (is_AttributeError_or_IndexError e);
    by destruct (text response).
Qed.

(** ** How a run ends *)

Lemma dispatch_raised (env : Env) (u : string) (e : Exn) :
  outcome (run_gemini_conversation env u) = Raised e ->
  ended_by_failed_call (run_gemini_conversation env u) e.
Proof.
  unfold ended_by_failed_call. unfold_dispatch.
  io_cases; intros Hout; simplify_eq/=;
    try match goal with
        | H : first_function_call _ = inl ?e,
          H' : is_AttributeError_or_IndexError ?e = false |- _ =>
            apply first_function_call_raises in H; congruence
        end;
    first
      [ solve [eexists [_; _], _; repeat split; done]
      | solve [eexists [_; _; _; _], _; repeat split; done]
      | solve [eexists [_; _; _; _; _], _; repeat split; done] ].
Qed.

Lemma ended_by_failed_call_after (evs : list Event) (r : IO unit) (e : Exn) :
  ended_by_failed_call r e ->
  ended_by_failed_call (mkIO (outcome r) (evs ++ trace r)) e.
Proof.
  intros (pre & ev & -> & Hev & Hclass).
  exists (evs ++ pre), ev. cbn [outcome trace].
  by rewrite <- app_assoc.
Qed.

Lemma loop_body_raised (env : Env) (st : WatchState) (e : Exn) :
  outcome (run (loop_body env) st).1 = Raised e ->
  ended_by_failed_call (run (loop_body env) st).1 e.
Proof.
  rewrite loop_body_eq. unfold poll_events.
  destruct (path_exists env); [|done].
  destruct (path_getmtime env) as [e'|mtime].
  { intros [= ->]. by exists [EvExists true], (EvGetmtime (inl e)). }
  destruct (mtime_differs mtime (last_mtime st)); [|done].
  cbn zeta.
  destruct (file_text env) as [e'|content].
  { intros [= ->].
    by exists [EvExists true; EvGetmtime (inr mtime)], (EvReadFile (inl e)). }
  destruct (get_last_line_of content) as [line|]; [|done].
  destruct (is_new_line _ _); [|done].
  rewrite run_dispatch_then_sleep. unfold after_events. cbn [fst snd].
  pose proof (dispatch_raised env line e) as Hd.
  destruct (run_gemini_conversation env line) as [[[]|e'|c] t];
    cbn [outcome trace] in *; try done.
  intros [= ->].
  by apply (ended_by_failed_call_after _ (mkIO (Raised e) t)), Hd.
Qed.

Lemma main_loop_raised (envs : list Env) (st : WatchState) (e : Exn) :
  outcome (run (main_loop envs) st).1 = Raised e ->
  ended_by_failed_call (run (main_loop envs) st).1 e.
Proof.
  revert st. induction envs as [|env rest IH]; intros st; [done|].
  rewrite main_loop_cons.
  pose proof (loop_body_raised env st e) as Hbody.
  destruct (run (loop_body env) st) as [[[[]|e'|c] t] st1];
    cbn [fst outcome] in *; [|exact Hbody|done].
  unfold after_events. cbn [fst outcome]. intros Hout.
  apply ended_by_failed_call_after, IH, Hout.
Qed.

(** X4.  A run of [main] is ended by an exception only through a
    failed call to the outside world, which is then the last event of
    the run: [os.path.getmtime], the read of the file, the request to
    the Oracle, or the call or completion of an action; in the last
    case the exception is neither an [AttributeError] nor an
    [IndexError]. *)
Theorem uncaught_exception_comes_from_failed_call
    (envs : list Env) (e : Exn) :
  outcome (main envs).1 = Raised e ->
  exists pre ev,
    trace (main envs).1 = pre ++ [ev] /\
    raised_by ev = Some e /\
    (from_action ev = true -> is_AttributeError_or_IndexError e = false).
Proof.
  rewrite main_eq. unfold after_events. cbn [fst outcome trace].
  intros Hout.
  destruct (main_loop_raised envs initial_state e Hout)
    as (pre & ev & Hr & Hev & Hclass).
  exists ([EvPrint LogReady; EvPrint LogMonitoring] ++ pre), ev.
  rewrite Hr. cbn [trace]. by rewrite <- app_assoc.
Qed.

(** X5.  [main] exits in one way only: with status 0, right after the
    prints that follow an action's return of a value passing the
    success test. *)
Theorem exit_only_after_success (envs : list Env) (c : Z) :
  outcome (main envs).1 = Exited c ->
  c = 0%Z /\
  exists pre ev v,
    trace (main envs).1 =
      pre ++ [ev; EvPrint (LogFunctionResult v); EvPrint LogSuccess;
              EvExit 0] /\
    action_result ev = Some v /\ is_success v = true.
Proof.
  intros Hout.
  destruct (main_shape envs) as [(pre & ev & v & Hr & Hres & Hv & _)
                                |[[Hn|[e He]] _]].
  - rewrite Hr in Hout |- *. cbn [outcome trace] in *.
    injection Hout as <-. split; [done|]. by exists pre, ev, v.
  - by rewrite Hn in Hout.
  - by rewrite He in Hout.
Qed.

(** ** What is dispatched, and how often *)

(** X6.  After an iteration that dispatched the utterance [u], however
    that dispatch ended, an iteration that finds [u] as the last
    non-blank line of the file performs polling events only, whatever
    the modification time: a line that did not lead to a dispense is
    not sent to the Oracle again while it stays the last line. *)
Theorem dispatched_line_is_not_sent_again
    (env env' : Env) (st : WatchState) (mtime : Timestamp)
    (u content' : string) :
  produces env st mtime u ->
  file_text env' = inr content' ->
  get_last_line_of content' = Some u ->
  forallb is_poll_event
    (trace (run (loop_body env') (run (loop_body env) st).2).1) = true /\
  last_processed_line (run (loop_body env') (run (loop_body env) st).2).2 = u.
Proof.
  intros Hp Hread Hlast.
  rewrite (loop_body_produces _ _ _ _ Hp), run_dispatch_then_sleep.
  unfold after_events. cbn [snd].
  rewrite loop_body_eq, Hread, Hlast. unfold poll_events, is_new_line.
  cbn [last_mtime last_processed_line].
  rewrite String.eqb_refl, andb_false_r.
  destruct (path_exists env'); [|done].
  destruct (path_getmtime env') as [e|mtime']; [done|].
  by destruct (mtime_differs mtime' (Some mtime)).
Qed.

Lemma utterances_app (tr tr' : list Event) :
  utterances (tr ++ tr') = utterances tr ++ utterances tr'.
Proof.
  induction tr as [|ev tr IH]; [done|].
  destruct ev as [| | | | | |[]| | |]; simpl; by rewrite ?IH.
Qed.

Lemma utterances_of_poll (tr : list Event) :
  forallb is_poll_event tr = true -> utterances tr = [].
Proof.
  induction tr as [|ev tr IH]; [done|].
  destruct ev; simpl; try done; intros H; by apply IH.
Qed.

Lemma utterances_of_dispatch (env : Env) (u : string) :
  utterances (trace (run_gemini_conversation env u)) = [u].
Proof. unfold_dispatch. io_cases; reflexivity. Qed.

Lemma utterances_of_iteration (env : Env) (st : WatchState) :
  (exists mtime u,
     produces env st mtime u /\
     utterances (trace (run (loop_body env) st).1) = [u] /\
     last_processed_line (run (loop_body env) st).2 = u)
  \/ (utterances (trace (run (loop_body env) st).1) = [] /\
      last_processed_line (run (loop_body env) st).2 =
        last_processed_line st).
Proof.
  destruct (loop_body_cases env st)
    as [(mtime & u & Hp & Hrun)|(Hpoll & Hline & _)].
  - left. exists mtime, u. split; [done|].
    rewrite Hrun, run_dispatch_then_sleep. unfold after_events.
    cbn [fst snd trace last_processed_line]. split; [|done].
    rewrite utterances_app.
    pose proof (utterances_of_dispatch env u) as Hu.
    destruct (run_gemini_conversation env u) as [[[]|e|c] t];
      cbn [trace] in *; rewrite ?utterances_app, Hu; done.
  - right. split; [by apply utterances_of_poll|done].
Qed.

Lemma last_of_cons {A} (l : list A) (x d d' : A) :
  List.last (x :: l) d = List.last (x :: l) d'.
Proof.
  revert x. induction l as [|y l IH]; intros x; [done|].
  change (List.last (y :: l) d = List.last (y :: l) d'). apply IH.
Qed.

Lemma main_loop_utterances (envs : list Env) (st : WatchState) :
  each_differs_from_previous (last_processed_line st)
    (utterances (trace (run (main_loop envs) st).1)) = true /\
  last_processed_line (run (main_loop envs) st).2 =
    List.last (utterances (trace (run (main_loop envs) st).1))
              (last_processed_line st).
Proof.
  revert st. induction envs as [|env rest IH]; intros st; [done|].
  rewrite main_loop_cons.
  pose proof (utterances_of_iteration env st) as Hit.
  destruct (run (loop_body env) st) as [[o t] st1].
  cbn [fst snd trace] in Hit.
  assert (Hhere :
    each_differs_from_previous (last_processed_line st) (utterances t) = true
    /\ last_processed_line st1 =
       List.last (utterances t) (last_processed_line st)).
  { destruct Hit as [(mtime & u & Hp & -> & ->)|[-> ->]]; [|done].
    split; [|done]. simpl. rewrite andb_true_r.
    pose proof (produces_is_new _ _ _ _ Hp) as Hnew. exact Hnew. }
  destruct o as [[]|e|c]; [|done..].
  unfold after_events. cbn [fst snd trace].
  destruct (IH st1) as [Hrest Hlast]. rewrite utterances_app, Hlast.
  destruct Hit as [(mtime & u & Hp & Hu & Hst1)|[Hu Hst1]];
    rewrite Hu in *; rewrite Hst1 in *.
  - destruct Hhere as [Hhere _]. simpl in Hhere |- *.
    rewrite andb_true_r in Hhere. rewrite Hhere, Hrest. split; [done|].
    destruct (utterances (trace (run (main_loop rest) st1).1)); [done|].
    apply last_of_cons.
  - done.
Qed.

(** X7.  In every run of [main] each utterance handed to the
    dispatcher is non-empty and differs from the one handed over just
    before it, and [last_processed_line] is at every stop the
    utterance dispatched last (the empty string when none was). *)
Theorem consecutive_utterances_differ (envs : list Env) :
  each_differs_from_previous "" (utterances (trace (main envs).1)) = true /\
  last_processed_line (main envs).2 =
    List.last (utterances (trace (main envs).1)) "".
Proof.
  rewrite main_eq. unfold after_events. cbn [fst snd trace].
  rewrite utterances_app. exact (main_loop_utterances envs initial_state).
Qed.


Lemma filter_poll_events (env : Env) :
  List.filter is_request (poll_events env) = [] /\
  List.filter is_call (poll_events env) = [] /\
  List.filter is_sleep (poll_events env) = [].
Proof. done. Qed.








(** ** More on the text of the file *)

Section MoreTextFacts.
Import Text.

Lemma append_cons (c : ascii) (s t : string) :
  String c s +:+ t = String c (s +:+ t).
Proof. reflexivity. Qed.

Lemma append_empty_l (t : string) : EmptyString +:+ t = t.
Proof. reflexivity. Qed.

Lemma append_assoc (s t r : string) : (s +:+ t) +:+ r = s +:+ t +:+ r.
Proof.
  induction s as [|c s IH]; [done|].
  by rewrite !append_cons, IH.
Qed.

Lemma append_empty_r (s : string) : s +:+ EmptyString = s.
Proof.
  induction s as [|c s IH]; [done|]. by rewrite append_cons, IH.
Qed.

Lemma chars_append (s t : string) : chars (s +:+ t) = chars s ++ chars t.
Proof.
  induction s as [|c s IH]; [done|].
  rewrite append_cons. simpl. by rewrite IH.
Qed.

Lemma all_space_append (s t : string) :
  all_space (s +:+ t) = all_space s && all_space t.
Proof.
  induction s as [|c s IH]; [done|].
  rewrite append_cons. simpl. by rewrite IH, andb_assoc.
Qed.

Lemma lstrip_all_space (s : string) :
  all_space s = true -> lstrip s = EmptyString.
Proof.
  induction s as [|c s IH]; [done|]. simpl.
  intros [-> Hs]%andb_true_iff. by apply IH.
Qed.

Lemma rstrip_all_space (s : string) :
  all_space s = true -> rstrip s = EmptyString.
Proof.
  induction s as [|c s IH]; [done|]. simpl.
  intros [Hc Hs]%andb_true_iff. by rewrite (IH Hs), Hc.
Qed.

Lemma strip_all_space (s : string) :
  all_space s = true <-> strip s = EmptyString.
Proof.
  split.
  - intros Hs. unfold strip. by rewrite (lstrip_all_space _ Hs).
  - intros Hs. destruct (strip_split s) as (lead & trail & Heq & Hl & Ht).
    rewrite Hs in Heq. rewrite Heq, append_empty_l.
    by rewrite all_space_append, Hl, Ht.
Qed.

Lemma rstrip_append_space (s w : string) :
  all_space w = true -> rstrip (s +:+ w) = rstrip s.
Proof.
  intros Hw. induction s as [|c s IH].
  - by apply rstrip_all_space.
  - rewrite append_cons. simpl. by rewrite IH.
Qed.

Lemma lstrip_append (s w : string) :
  lstrip (s +:+ w) = if all_space s then lstrip w else lstrip s +:+ w.
Proof.
  induction s as [|c s IH]; [done|].
  rewrite append_cons. simpl.
  destruct (is_space c); [done|]. by rewrite append_cons.
Qed.

Lemma strip_append_space (s w : string) :
  all_space w = true -> strip (s +:+ w) = strip s.
Proof.
  intros Hw. unfold strip. rewrite lstrip_append.
  destruct (all_space s) eqn:Hs.
  - by rewrite (lstrip_all_space _ Hw), (lstrip_all_space _ Hs).
  - by apply rstrip_append_space.
Qed.

End MoreTextFacts.

Section NewlineFacts.
Import Text.

Lemma string_ind2 (P : string -> Prop) :
  P EmptyString ->
  (forall c, P (String c EmptyString)) ->
  (forall c d s, P s -> P (String d s) -> P (String c (String d s))) ->
  forall s, P s.
Proof.
  intros H0 H1 H2 s.
  assert (H : P s /\ forall c, P (String c s)); [|by destruct H].
  induction s as [|d s [IHs IHc]]; [done|].
  split; [apply IHc|]. intros c. by apply H2.
Qed.

Lemma universal_newlines_other (c : ascii) (s : string) :
  c <> CR -> universal_newlines (String c s) = String c (universal_newlines s).
Proof.
  intros Hc. simpl. by apply Ascii.eqb_neq in Hc as ->.
Qed.

Lemma universal_newlines_CR_LF (s : string) :
  universal_newlines (String CR (String LF s)) =
  String LF (universal_newlines s).
Proof. reflexivity. Qed.

Lemma universal_newlines_CR_other (d : ascii) (s : string) :
  d <> LF ->
  universal_newlines (String CR (String d s)) =
  String LF (universal_newlines (String d s)).
Proof.
  intros Hd.
  change (universal_newlines (String CR (String d s)))
    with (if Ascii.eqb d LF then String LF (universal_newlines s)
          else String LF (universal_newlines (String d s))).
  by apply Ascii.eqb_neq in Hd as ->.
Qed.

Lemma universal_newlines_no_CR (s : string) :
  Forall (fun c => c <> CR) (chars (universal_newlines s)).
Proof.
  induction s as [|c|c d s IHs IHd] using string_ind2.
  - constructor.
  - destruct (Ascii.eqb_spec c CR) as [->|Hc]; [by repeat constructor|].
    rewrite universal_newlines_other by done. by repeat constructor.
  - destruct (Ascii.eqb_spec c CR) as [->|Hc].
    + destruct (Ascii.eqb_spec d LF) as [->|Hd].
      * rewrite universal_newlines_CR_LF. by constructor.
      * rewrite universal_newlines_CR_other by done. by constructor.
    + rewrite universal_newlines_other by done. by constructor.
Qed.

Lemma universal_newlines_id (s : string) :
  Forall (fun c => c <> CR) (chars s) -> universal_newlines s = s.
Proof.
  induction s as [|c s IH]; [done|]. simpl chars.
  intros [Hc Hs]%Forall_cons.
  rewrite universal_newlines_other by done. by rewrite IH.
Qed.

Lemma universal_newlines_all_space (w : string) :
  all_space w = true -> all_space (universal_newlines w) = true.
Proof.
  induction w as [|c|c d w IHw IHd] using string_ind2.
  - done.
  - destruct (Ascii.eqb_spec c CR) as [->|Hc]; [done|].
    by rewrite universal_newlines_other.
  - intros Hall. pose proof Hall as Hall'. simpl in Hall'.
    apply andb_true_iff in Hall' as [Hc [Hd Hw]%andb_true_iff].
    destruct (Ascii.eqb_spec c CR) as [->|Hc'].
    + destruct (Ascii.eqb_spec d LF) as [->|Hd'].
      * rewrite universal_newlines_CR_LF. simpl. by apply IHw.
      * rewrite universal_newlines_CR_other by done. simpl. apply IHd.
        simpl. by rewrite Hd, Hw.
    + rewrite universal_newlines_other by done. simpl. rewrite Hc. simpl.
      apply IHd. simpl. by rewrite Hd, Hw.
Qed.

(** Translating a text and a continuation: the two translations put
    together, except that a carriage return ending the text and a
    line feed starting the continuation make one line end. *)
Lemma universal_newlines_append (s x : string) :
  universal_newlines (s +:+ x) = universal_newlines s +:+ universal_newlines x
  \/ exists x', x = String LF x' /\
       universal_newlines (s +:+ x) =
       universal_newlines s +:+ universal_newlines x'.
Proof.
  induction s as [|c|c d s IHs IHd] using string_ind2.
  - by left.
  - rewrite append_cons, append_empty_l.
    destruct (Ascii.eqb_spec c CR) as [->|Hc].
    + destruct x as [|d x]; [by left|].
      destruct (Ascii.eqb_spec d LF) as [->|Hd].
      * right. by exists x.
      * left. by rewrite universal_newlines_CR_other.
    + left. by rewrite !universal_newlines_other.
  - rewrite !append_cons.
    destruct (Ascii.eqb_spec c CR) as [->|Hc].
    + destruct (Ascii.eqb_spec d LF) as [->|Hd].
      * rewrite !universal_newlines_CR_LF, append_cons.
        destruct IHs as [->|(x' & -> & ->)]; [by left|right; by exists x'].
      * rewrite !universal_newlines_CR_other, append_cons by done.
        rewrite <- append_cons.
        destruct IHd as [->|(x' & -> & ->)]; [by left|right; by exists x'].
    + rewrite !(universal_newlines_other c), append_cons by done.
      rewrite <- append_cons.
      destruct IHd as [->|(x' & -> & ->)]; [by left|right; by exists x'].
Qed.

Lemma universal_newlines_append_space (s w : string) :
  all_space w = true ->
  exists w', all_space w' = true /\
    universal_newlines (s +:+ w) = universal_newlines s +:+ w'.
Proof.
  intros Hw.
  destruct (universal_newlines_append s w) as [->|(x' & -> & ->)].
  - eexists. split; [|done]. by apply universal_newlines_all_space.
  - eexists. split; [|done]. apply universal_newlines_all_space.
    exact Hw.
Qed.

Lemma universal_newlines_ends_line (s : string) :
  exists y, universal_newlines (s +:+ nl) = y +:+ nl.
Proof.
  unfold nl.
  induction s as [|c|c d s [y IHs] [y' IHd]] using string_ind2.
  - by exists EmptyString.
  - rewrite append_cons, append_empty_l.
    destruct (Ascii.eqb_spec c CR) as [->|Hc].
    + by exists EmptyString.
    + exists (String c EmptyString). by rewrite universal_newlines_other.
  - rewrite !append_cons.
    destruct (Ascii.eqb_spec c CR) as [->|Hc].
    + destruct (Ascii.eqb_spec d LF) as [->|Hd].
      * rewrite universal_newlines_CR_LF, IHs. by exists (String LF y).
      * rewrite universal_newlines_CR_other by done.
        rewrite <- append_cons, IHd. by exists (String LF y').
    + rewrite universal_newlines_other by done.
      rewrite <- append_cons, IHd. by exists (String c y').
Qed.

End NewlineFacts.

Section LineFacts.
Import Text.

Lemma split_lines_LF (s : string) :
  split_lines (String LF s) = nl :: split_lines s.
Proof. reflexivity. Qed.

Lemma split_lines_other (c : ascii) (s : string) :
  c <> LF ->
  split_lines (String c s) =
  match split_lines s with
  | [] => [String c EmptyString]
  | l :: ls => String c l :: ls
  end.
Proof. intros Hc. simpl. by apply Ascii.eqb_neq in Hc as ->. Qed.

Lemma split_lines_nil (s : string) :
  split_lines s = [] -> s = EmptyString.
Proof.
  destruct s as [|c s]; [done|].
  destruct (Ascii.eqb_spec c LF) as [->|Hc]; [done|].
  rewrite split_lines_other by done. by destruct (split_lines s).
Qed.

Lemma split_lines_one (s : string) :
  Forall (fun c => c <> LF) (chars s) -> s <> EmptyString ->
  split_lines s = [s].
Proof.
  induction s as [|c s IH]; [done|]. simpl chars.
  intros [Hc Hs]%Forall_cons _. rewrite split_lines_other by done.
  destruct s as [|d s]; [done|]. by rewrite IH.
Qed.

Lemma split_lines_after_newline (y x : string) :
  split_lines ((y +:+ nl) +:+ x) = split_lines (y +:+ nl) ++ split_lines x.
Proof.
  induction y as [|c y IH]; [done|].
  rewrite !append_cons.
  destruct (Ascii.eqb_spec c LF) as [->|Hc].
  - rewrite !split_lines_LF, IH. done.
  - rewrite !split_lines_other, IH by done.
    destruct (split_lines (y +:+ nl)) as [|l ls] eqn:Hy; [|done].
    apply split_lines_nil in Hy. by destruct y.
Qed.

Lemma split_lines_chars (P : ascii -> Prop) (s : string) :
  Forall P (chars s) ->
  Forall (fun l => Forall P (chars l)) (split_lines s).
Proof.
  induction s as [|c s IH]; [constructor|]. simpl chars.
  intros [Hc Hs]%Forall_cons. specialize (IH Hs).
  destruct (Ascii.eqb_spec c LF) as [->|Hc'].
  - rewrite split_lines_LF. constructor; [|done]. by repeat constructor.
  - rewrite split_lines_other by done.
    destruct (split_lines s) as [|l ls]; [by repeat constructor|].
    apply Forall_cons in IH as [Hl Hls]. constructor; [|done].
    by constructor.
Qed.

(** A line holds a line feed at its end only. *)
Lemma split_lines_LF_last (s : string) :
  Forall (fun l => exists body,
            (l = body \/ l = body +:+ nl) /\
            Forall (fun c => c <> LF) (chars body))
         (split_lines s).
Proof.
  induction s as [|c s IH]; [constructor|].
  destruct (Ascii.eqb_spec c LF) as [->|Hc].
  - rewrite split_lines_LF. constructor; [|done].
    exists EmptyString. split; [by right|constructor].
  - rewrite split_lines_other by done.
    destruct (split_lines s) as [|l ls].
    + constructor; [|done]. exists (String c EmptyString).
      split; [by left|by repeat constructor].
    + apply Forall_cons in IH as [(body & Hl & Hbody) Hls].
      constructor; [|done]. exists (String c body).
      split; [|by constructor].
      destruct Hl as [->| ->]; [by left|by right].
Qed.

Lemma all_space_chars (s : string) :
  all_space s = true <-> Forall (fun c => is_space c = true) (chars s).
Proof.
  induction s as [|c s IH]; simpl; [by split; [constructor|]|].
  rewrite andb_true_iff, Forall_cons. by rewrite IH.
Qed.

Lemma split_lines_all_space (w : string) :
  all_space w = true ->
  Forall (fun l => all_space l = true) (split_lines w).
Proof.
  intros Hw%all_space_chars.
  eapply Forall_impl; [by apply split_lines_chars|].
  intros l. by apply all_space_chars.
Qed.

Lemma split_lines_append_space (t w : string) :
  all_space w = true -> padded (split_lines t) (split_lines (t +:+ w)).
Proof.
  intros Hw. induction t as [|c t IH].
  - left. split; [done|]. by apply split_lines_all_space.
  - rewrite append_cons.
    destruct (Ascii.eqb_spec c LF) as [->|Hc].
    + rewrite !split_lines_LF. right.
      destruct IH as [[-> Hall]|(init & l & ws & extra & -> & -> & Hws & Hex)].
      * exists [], nl, EmptyString, (split_lines (t +:+ w)). done.
      * by exists (nl :: init), l, ws, extra.
    + rewrite !split_lines_other by done. right.
      destruct IH as [[-> Hall]|(init & l & ws & extra & -> & -> & Hws & Hex)].
      * destruct (split_lines (t +:+ w)) as [|l0 ls0].
        -- by exists [], (String c EmptyString), EmptyString, [].
        -- apply Forall_cons in Hall as [Hl0 Hls0].
           by exists [], (String c EmptyString), l0, ls0.
      * destruct init as [|i0 init].
        -- by exists [], (String c l), ws, extra.
        -- by exists (String c i0 :: init), l, ws, extra.
Qed.

Lemma last_nonblank_padded (ls ls' : list string) :
  padded ls ls' ->
  option_map strip (last (List.filter (fun l => truthy (strip l)) ls')) =
  option_map strip (last (List.filter (fun l => truthy (strip l)) ls)).
Proof.
  assert (Hblank : forall extra,
            Forall (fun l => all_space l = true) extra ->
            List.filter (fun l => truthy (strip l)) extra = []).
  { induction extra as [|l extra IH]; [done|].
    intros [Hl Hex]%Forall_cons. simpl.
    apply strip_all_space in Hl as ->. by apply IH. }
  intros [[-> Hall]|(init & l & ws & extra & -> & -> & Hws & Hex)].
  - by rewrite (Hblank _ Hall).
  - rewrite !List.filter_app. simpl.
    rewrite (strip_append_space _ _ Hws), (Hblank _ Hex).
    destruct (truthy (strip l)); [|done].
    rewrite !last_snoc. simpl. by rewrite strip_append_space.
Qed.

Lemma get_last_line_of_append_space (content w : string) :
  all_space w = true ->
  get_last_line_of (content +:+ w) = get_last_line_of content.
Proof.
  intros Hw. rewrite !get_last_line_of_last. unfold file_lines.
  destruct (universal_newlines_append_space content w Hw)
    as (w' & Hw' & ->).
  apply last_nonblank_padded. by apply split_lines_append_space.
Qed.

Lemma get_last_line_of_append_line (content line : string) :
  content = EmptyString \/ (exists c', content = c' +:+ nl) ->
  Forall (fun c => c <> LF /\ c <> CR) (chars line) ->
  strip line <> EmptyString ->
  get_last_line_of (content +:+ line) = Some (strip line).
Proof.
  intros Hcontent Hline Hstrip.
  assert (Hne : line <> EmptyString) by (intros ->; by apply Hstrip).
  assert (HLF : Forall (fun c => c <> LF) (chars line)).
  { eapply Forall_impl; [exact Hline|]. by intros c [? ?]. }
  assert (HCR : Forall (fun c => c <> CR) (chars line)).
  { eapply Forall_impl; [exact Hline|]. by intros c [? ?]. }
  rewrite get_last_line_of_last. unfold file_lines.
  assert (Hun : universal_newlines (content +:+ line) =
                universal_newlines content +:+ line).
  { destruct (universal_newlines_append content line) as [->|(x' & -> & _)].
    - by rewrite (universal_newlines_id line).
    - simpl in HLF. by apply Forall_cons in HLF as [? _]. }
  rewrite Hun.
  assert (Hlines : exists ls,
            split_lines (universal_newlines content +:+ line) = ls ++ [line]).
  { destruct Hcontent as [->|[c' ->]].
    - exists []. by apply split_lines_one.
    - destruct (universal_newlines_ends_line c') as [y ->].
      rewrite split_lines_after_newline, (split_lines_one line) by done. eauto. }
  destruct Hlines as [ls ->].
  rewrite List.filter_app. simpl.
  apply truthy_true in Hstrip as ->. by rewrite last_snoc.
Qed.

End LineFacts.

(** X10.  The utterance [get_last_line] returns is a single line: it
    holds neither a line feed nor a carriage return. *)
Theorem utterance_is_a_single_line (content u : string) :
  get_last_line_of content = Some u ->
  Forall (fun c => c <> Text.LF /\ c <> Text.CR) (chars u).
Proof.
  intros (before & line & after & Hsplit & -> & _ & _)%get_last_line_of_some.
  unfold Text.file_lines in Hsplit.
  pose proof (split_lines_LF_last (Text.universal_newlines content)) as HLF.
  pose proof (split_lines_chars _ _ (universal_newlines_no_CR content)) as HCR.
  rewrite Hsplit in HLF, HCR.
  apply Forall_app in HLF as [_ [(body & Hline & Hbody) _]%Forall_cons].
  apply Forall_app in HCR as [_ [HCR _]%Forall_cons].
  assert (Hstrip : Text.strip line = Text.strip body).
  { destruct Hline as [->| ->]; [done|]. by apply strip_append_space. }
  assert (Hbody' : Forall (fun c => c <> Text.LF /\ c <> Text.CR) (chars body)).
  { apply Forall_and. split; [done|].
    destruct Hline as [->| ->]; [done|].
    rewrite chars_append in HCR. by apply Forall_app in HCR as [? _]. }
  rewrite Hstrip.
  destruct (strip_split body) as (lead & trail & Hb & _ & _).
  rewrite Hb, !chars_append in Hbody'.
  apply Forall_app in Hbody' as [_ Hbody'].
  by apply Forall_app in Hbody' as [? _].
Qed.

(** X11.  Whitespace appended to the file, blank lines included, does
    not change what [get_last_line] returns; so an iteration that reads
    the file after only whitespace was appended behind the line
    processed last dispatches nothing, although the modification time
    has changed. *)
Theorem appended_whitespace_is_ignored (content w : string) :
  Text.all_space w = true ->
  get_last_line_of (content +:+ w) = get_last_line_of content /\
  forall (env : Env) (st : WatchState),
    file_text env = inr (content +:+ w) ->
    get_last_line_of content = Some (last_processed_line st) ->
    forallb is_poll_event (trace (run (loop_body env) st).1) = true.
Proof.
  intros Hw. split; [by apply get_last_line_of_append_space|].
  intros env st Hread Hlast.
  rewrite loop_body_eq, Hread, (get_last_line_of_append_space _ _ Hw), Hlast.
  unfold poll_events, is_new_line. rewrite String.eqb_refl, andb_false_r.
  destruct (path_exists env); [|done].
  destruct (path_getmtime env) as [e|mtime]; [done|].
  by destruct (mtime_differs mtime (last_mtime st)).
Qed.

(** X12.  When the file is empty or ends with a line feed, a line
    appended to it that is not blank and holds no line feed or carriage
    return, followed by any whitespace (its line end, say), is what
    [get_last_line] returns next, stripped. *)
Theorem appended_line_becomes_the_utterance (content line w : string) :
  content = EmptyString \/ (exists c', content = c' +:+ nl) ->
  Forall (fun c => c <> Text.LF /\ c <> Text.CR) (chars line) ->
  Text.strip line <> EmptyString ->
  Text.all_space w = true ->
  get_last_line_of (content +:+ line +:+ w) = Some (Text.strip line).
Proof.
  intros Hcontent Hline Hstrip Hw.
  rewrite <- append_assoc, (get_last_line_of_append_space _ _ Hw).
  by apply get_last_line_of_append_line.
Qed.

(** ** The further properties at work on sample worlds *)

Lemma first_part_without_selection_is_no_action_witness :
  run_gemini_conversation
    (env_with response_call_in_second_part (inr (Plain (VBool true))))
    "I'm thirsty" =
  mkIO (Normal tt)
    (request_events
       (env_with response_call_in_second_part (inr (Plain (VBool true))))
       "I'm thirsty"
     ++ [EvPrint LogNoFunctionCall]).
Proof.
  destruct (first_part_without_selection_is_no_action
              (env_with response_call_in_second_part
                        (inr (Plain (VBool true))))
              "I'm thirsty" response_call_in_second_part
              {| content :=
                   Some {| parts :=
                             [{| function_call := None |};
                              {| function_call :=
                                   Some {| fc_name := "dispense_drink";
                                           fc_args := None |} |}] |} |}
              [{| content :=
                    Some {| parts :=
                              [{| function_call :=
                                    Some {| fc_name := "dispense_drink";
                                            fc_args := None |} |}] |} |}]
              {| parts :=
                   [{| function_call := None |};
                    {| function_call :=
                         Some {| fc_name := "dispense_drink";
                                 fc_args := None |} |}] |}
              {| function_call := None |}
              [{| function_call :=
                    Some {| fc_name := "dispense_drink";
                            fc_args := None |} |}])
    as [Hd _].
  - reflexivity.
  - reflexivity.
  - reflexivity.
  - reflexivity.
  - reflexivity.
  - exact Hd.
Defined.

Lemma text_of_response_without_parts_is_printed_witness :
  run_gemini_conversation
    (env_with response_text_only (inr (Plain (VBool true)))) "I'm thirsty" =
  mkIO (Normal tt)
    (request_events (env_with response_text_only (inr (Plain (VBool true))))
                    "I'm thirsty"
     ++ [EvPrint (LogText "Hello.")]).
Proof.
  destruct (text_of_response_without_parts_is_printed
              (env_with response_text_only (inr (Plain (VBool true))))
              "I'm thirsty" response_text_only AttributeError "Hello.")
    as [Hd _].
  - reflexivity.
  - reflexivity.
  - reflexivity.
  - exact Hd.
Defined.

Lemma exception_of_action_is_caught_by_class_witness :
  outcome (run_gemini_conversation
             (env_with (response_calling "dispense_drink")
                       (inl AttributeError))
             "I'm thirsty") = Normal tt /\
  outcome (run_gemini_conversation
             (env_with (response_calling "dispense_drink")
                       (inr (Coroutine (inl (OtherException "OSError")))))
             "I'm thirsty") = Raised (OtherException "OSError").
Proof.
  split.
  - rewrite (exception_of_action_is_caught_by_class
               (env_with (response_calling "dispense_drink")
                         (inl AttributeError))
               "I'm thirsty" (response_calling "dispense_drink")
               {| fc_name := "dispense_drink"; fc_args := None |}
               (fun _ => inl AttributeError) AttributeError).
    + reflexivity.
    + reflexivity.
    + reflexivity.
    + vm_compute. reflexivity.
    + left. reflexivity.
  - rewrite (exception_of_action_is_caught_by_class
               (env_with (response_calling "dispense_drink")
                         (inr (Coroutine (inl (OtherException "OSError")))))
               "I'm thirsty" (response_calling "dispense_drink")
               {| fc_name := "dispense_drink"; fc_args := None |}
               (fun _ => inr (Coroutine (inl (OtherException "OSError"))))
               (OtherException "OSError")).
    + reflexivity.
    + reflexivity.
    + reflexivity.
    + vm_compute. reflexivity.
    + right. reflexivity.
Defined.

Lemma uncaught_exception_comes_from_failed_call_witness :
  exists pre ev,
    trace (main [env_unreadable]).1 = pre ++ [ev] /\
    raised_by ev = Some (OtherException "PermissionError").
Proof.
  destruct (uncaught_exception_comes_from_failed_call
              [env_unreadable] (OtherException "PermissionError"))
    as (pre & ev & Htr & Hev & _).
  - vm_compute. reflexivity.
  - exists pre, ev. split; assumption.
Defined.

Lemma exit_only_after_success_witness :
  exists pre ev v,
    trace (main [env_dispensing (VBool true)]).1 =
      pre ++ [ev; EvPrint (LogFunctionResult v); EvPrint LogSuccess;
              EvExit 0] /\
    action_result ev = Some v /\ is_success v = true.
Proof.
  destruct (exit_only_after_success [env_dispensing (VBool true)] 0)
    as [_ H].
  - vm_compute. reflexivity.
  - exact H.
Defined.

Lemma dispatched_line_is_not_sent_again_witness :
  forallb is_poll_event
    (trace (run (loop_body env_touched)
                (run (loop_body (env_dispensing (VInt 2))) initial_state).2).1)
  = true.
Proof.
  destruct (dispatched_line_is_not_sent_again
              (env_dispensing (VInt 2)) env_touched initial_state
              1700000000%Z "I'm thirsty" (transcript +:+ nl))
    as [Hpoll _].
  - split; [reflexivity|]. split; [reflexivity|]. split; [reflexivity|].
    exists transcript. split; [reflexivity|].
    split; [vm_compute; reflexivity|discriminate].
  - reflexivity.
  - vm_compute. reflexivity.
  - exact Hpoll.
Defined.



Lemma utterance_is_a_single_line_witness :
  Forall (fun c => c <> Text.LF /\ c <> Text.CR) (chars "I'm thirsty").
Proof.
  apply (utterance_is_a_single_line transcript). vm_compute. reflexivity.
Defined.

Lemma appended_whitespace_is_ignored_witness :
  get_last_line_of (transcript +:+ nl) = get_last_line_of transcript /\
  forallb is_poll_event
    (trace (run (loop_body env_touched) state_after_thirsty).1) = true.
Proof.
  destruct (appended_whitespace_is_ignored transcript nl) as [Hsame Hloop].
  - reflexivity.
  - split; [exact Hsame|]. apply Hloop.
    + reflexivity.
    + vm_compute. reflexivity.
Defined.

Lemma appended_line_becomes_the_utterance_witness :
  get_last_line_of (transcript +:+ "I need a drink" +:+ nl) =
  Some (Text.strip "I need a drink").
Proof.
  apply (appended_line_becomes_the_utterance transcript "I need a drink" nl).
  - right. exists ("hello" +:+ nl +:+ "  I'm thirsty " +:+ nl +:+ " ").
    vm_compute. reflexivity.
  - vm_compute. repeat constructor; discriminate.
  - vm_compute. discriminate.
  - reflexivity.
Defined.

Lemma repoll_is_idle_witness :
  run (loop_body (env_dispensing (VInt 2)))
      (run (loop_body (env_dispensing (VInt 2))) initial_state).2 =
  (mkIO (Normal tt)
     [EvExists true; EvGetmtime (inr 1700000000%Z); EvSleep 500],
   (run (loop_body (env_dispensing (VInt 2))) initial_state).2).
Proof.
  apply (repoll_is_idle (env_dispensing (VInt 2)) (env_dispensing (VInt 2))
                        initial_state).
  - vm_compute. reflexivity.
  - reflexivity.
  - reflexivity.
Defined.

(** ** Change detection *)

Lemma requests_of_dispatch (env : Env) (u : string) :
  List.filter is_request (trace (run_gemini_conversation env u)) =
  [EvGenerate (full_prompt u) (generate_content env (full_prompt u))].
Proof. unfold_dispatch. io_cases; reflexivity. Qed.

(** X14.  An iteration that finds the file with a modification time
    other than the recorded one (earlier or later: the test is [!=])
    and a last non-blank line other than the line processed last
    dispatches exactly that line, once: the one request of the
    iteration carries the system prompt followed by that line and
    nothing of earlier iterations, and both locals are updated,
    however the dispatch ends. *)
Theorem changed_file_with_new_line_is_dispatched_once
    (env : Env) (st : WatchState) (mtime : Timestamp) (content u : string) :
  path_exists env = true ->
  path_getmtime env = inr mtime ->
  last_mtime st <> Some mtime ->
  file_text env = inr content ->
  get_last_line_of content = Some u ->
  u <> last_processed_line st ->
  utterances (trace (run (loop_body env) st).1) = [u] /\
  List.filter is_request (trace (run (loop_body env) st).1) =
    [EvGenerate (full_prompt u) (generate_content env (full_prompt u))] /\
  full_prompt u = SYSTEM_PROMPT +:+ nl +:+ nl +:+ "User request: " +:+ u /\
  (run (loop_body env) st).2 =
    {| last_mtime := Some mtime; last_processed_line := u |}.
Proof.
  intros Hex Hmt Hdiff Hread Hlast Hne.
  assert (Hp : produces env st mtime u).
  { split; [done|]. split; [done|]. split; [|by exists content].
    unfold mtime_differs. destruct (last_mtime st) as [l|]; [|done].
    apply negb_true_iff, Z.eqb_neq. congruence. }
  rewrite (loop_body_produces _ _ _ _ Hp), run_dispatch_then_sleep.
  unfold after_events. cbn [fst snd trace].
  pose proof (utterances_of_dispatch env u) as Hu.
  pose proof (requests_of_dispatch env u) as Hreq.
  destruct (run_gemini_conversation env u) as [[[]|e|c] t];
    cbn [trace outcome] in *;
    rewrite ?utterances_app, ?List.filter_app, Hu, Hreq; done.
Qed.

Lemma changed_file_with_new_line_is_dispatched_once_witness :
  utterances (trace (run (loop_body env_later)
                         {| last_mtime := Some 1800000000%Z;
                            last_processed_line := "I'm thirsty" |}).1) =
  ["I need a drink"].
Proof.
  destruct (changed_file_with_new_line_is_dispatched_once
              env_later
              {| last_mtime := Some 1800000000%Z;
                 last_processed_line := "I'm thirsty" |}
              1700000060%Z (transcript +:+ "I need a drink" +:+ nl)
              "I need a drink")
    as [Hu _].
  - reflexivity.
  - reflexivity.
  - discriminate.
  - reflexivity.
  - vm_compute. reflexivity.
  - discriminate.
  - exact Hu.
Defined.

(** ** The last non-blank line, on the text of the file *)

Section RawTextFacts.
Import Text.

Lemma last_char_cons (c d : ascii) (s : string) :
  last_char (String c (String d s)) = last_char (String d s).
Proof. reflexivity. Qed.

Lemma last_char_snoc (pre : string) (c : ascii) :
  last_char pre = Some c -> exists p, pre = p +:+ String c EmptyString.
Proof.
  induction pre as [|d pre IH]; [done|].
  destruct pre as [|d' pre].
  - intros [= ->]. by exists EmptyString.
  - rewrite last_char_cons. intros [p ->]%IH.
    by exists (String d p).
Qed.

Lemma last_char_none (pre : string) :
  last_char pre = None -> pre = EmptyString.
Proof.
  induction pre as [|c pre IH]; [done|].
  destruct pre as [|d pre]; [done|].
  rewrite last_char_cons. intros H. by apply IH in H.
Qed.

Lemma universal_newlines_ends_line_CR (s : string) :
  exists y, universal_newlines (s +:+ String CR EmptyString) = y +:+ nl.
Proof.
  unfold nl.
  induction s as [|c|c d s [y IHs] [y' IHd]] using string_ind2.
  - by exists EmptyString.
  - rewrite append_cons, append_empty_l.
    destruct (Ascii.eqb_spec c CR) as [->|Hc].
    + by exists (String LF EmptyString).
    + exists (String c EmptyString). by rewrite universal_newlines_other.
  - rewrite !append_cons.
    destruct (Ascii.eqb_spec c CR) as [->|Hc].
    + destruct (Ascii.eqb_spec d LF) as [->|Hd].
      * rewrite universal_newlines_CR_LF, IHs. by exists (String LF y).
      * rewrite universal_newlines_CR_other by done.
        rewrite <- append_cons, IHd. by exists (String LF y').
    + rewrite universal_newlines_other by done.
      rewrite <- append_cons, IHd. by exists (String c y').
Qed.

Lemma universal_newlines_at_line_start (pre : string) :
  at_line_start pre = true ->
  pre = EmptyString \/ exists y, universal_newlines pre = y +:+ nl.
Proof.
  unfold at_line_start. destruct (last_char pre) as [c|] eqn:Hlast.
  - intros Hc. right. apply last_char_snoc in Hlast as [p ->].
    unfold is_newline in Hc. apply orb_true_iff in Hc as [Hc|Hc];
      apply Ascii.eqb_eq in Hc as ->.
    + apply universal_newlines_ends_line.
    + apply universal_newlines_ends_line_CR.
  - intros _. left. by apply last_char_none.
Qed.

Lemma get_last_line_of_line_at_end (pre line : string) :
  at_line_start pre = true ->
  Forall (fun c => c <> LF /\ c <> CR) (chars line) ->
  strip line <> EmptyString ->
  get_last_line_of (pre +:+ line) = Some (strip line).
Proof.
  intros Hpre Hline Hstrip.
  assert (Hne : line <> EmptyString) by (intros ->; by apply Hstrip).
  assert (HLF : Forall (fun c => c <> LF) (chars line)).
  { eapply Forall_impl; [exact Hline|]. by intros c [? ?]. }
  assert (HCR : Forall (fun c => c <> CR) (chars line)).
  { eapply Forall_impl; [exact Hline|]. by intros c [? ?]. }
  rewrite get_last_line_of_last. unfold file_lines.
  assert (Hun : universal_newlines (pre +:+ line) =
                universal_newlines pre +:+ line).
  { destruct (universal_newlines_append pre line) as [->|(x' & -> & _)].
    - by rewrite (universal_newlines_id line).
    - simpl in HLF. by apply Forall_cons in HLF as [? _]. }
  rewrite Hun.
  assert (Hlines : exists ls,
            split_lines (universal_newlines pre +:+ line) = ls ++ [line]).
  { destruct (universal_newlines_at_line_start pre Hpre) as [->|[y ->]].
    - exists []. by apply split_lines_one.
    - rewrite split_lines_after_newline, (split_lines_one line) by done.
      eauto. }
  destruct Hlines as [ls ->].
  rewrite List.filter_app. simpl.
  apply truthy_true in Hstrip as ->. by rewrite last_snoc.
Qed.

Lemma get_last_line_of_all_space (content : string) :
  all_space content = true -> get_last_line_of content = None.
Proof.
  intros Hw.
  change content with (EmptyString +:+ content).
  by rewrite (get_last_line_of_append_space EmptyString content Hw).
Qed.

Lemma is_newline_space (c : ascii) : is_newline c = true -> is_space c = true.
Proof.
  unfold is_newline.
  intros [Hc|Hc]%orb_true_iff; by apply Ascii.eqb_eq in Hc as ->.
Qed.

Lemma is_newline_false (c : ascii) :
  is_newline c = false -> c <> LF /\ c <> CR.
Proof.
  unfold is_newline. intros [H1 H2]%orb_false_iff.
  split; by apply Ascii.eqb_neq.
Qed.

(** A text is all whitespace, or it holds a last non-blank stretch
    without line ends that starts a line and is followed by whitespace
    only. *)
Lemma last_nonblank_stretch (s : string) :
  all_space s = true \/
  exists pre line post,
    s = pre +:+ line +:+ post /\
    at_line_start pre = true /\
    Forall (fun c => c <> LF /\ c <> CR) (chars line) /\
    all_space line = false /\
    all_space post = true.
Proof.
  induction s as [|c s IH]; [by left|].
  destruct IH as [Hs|(pre & line & post & -> & Hpre & Hline & Hnb & Hpost)].
  - destruct (is_space c) eqn:Hc; [left; simpl; by rewrite Hc|].
    right. exists EmptyString, (String c EmptyString), s.
    split; [done|]. split; [done|]. split; [|by simpl; rewrite Hc].
    constructor; [|constructor].
    destruct (is_newline c) eqn:Hn; [|by apply is_newline_false].
    apply is_newline_space in Hn. congruence.
  - right. destruct pre as [|d pre].
    + destruct (is_newline c) eqn:Hn.
      * exists (String c EmptyString), line, post.
        split; [done|]. split; [exact Hn|done].
      * exists EmptyString, (String c line), post.
        split; [done|]. split; [done|]. split; [|split; [|done]].
        -- constructor; [by apply is_newline_false|done].
        -- simpl. by rewrite Hnb, andb_false_r.
    + exists (String c (String d pre)), line, post.
      split; [done|]. split; [|done].
      unfold at_line_start in *. by rewrite last_char_cons.
Qed.

Lemma strip_nonblank (s : string) :
  all_space s = false <-> strip s <> EmptyString.
Proof.
  rewrite <- strip_all_space. by destruct (all_space s).
Qed.

End RawTextFacts.

(** C10.  [get_last_line] reads the file and returns the last of its
    lines that is non-empty once stripped, stripped of its leading and
    trailing whitespace; it returns [None] exactly when every line of
    the file is blank (an empty file has no line), and then the
    iteration performs nothing but the polling events: no dispatch.
    On the text of the file itself: when the text is a stretch [line]
    without line ends that starts a line, is not all whitespace and is
    followed by whitespace only, the result is [line] stripped; every
    result arises that way; and the result is [None] exactly when the
    whole text is whitespace. *)
Theorem get_last_line_returns_last_nonblank
    (env : Env) (st : WatchState) (content : string) :
  file_text env = inr content ->
  get_last_line env =
    mkIO (Normal (get_last_line_of content)) [EvReadFile (inr content)] /\
  (forall u, get_last_line_of content = Some u ->
     exists before line after lead trail,
       Text.file_lines content = before ++ line :: after /\
       Forall blank after /\
       u = Text.strip line /\ u <> EmptyString /\
       line = lead +:+ u +:+ trail /\
       Text.all_space lead = true /\ Text.all_space trail = true /\
       (forall c, Text.head_char u = Some c -> Text.is_space c = false) /\
       (forall c, Text.last_char u = Some c -> Text.is_space c = false)) /\
  (get_last_line_of content = None <->
     Forall blank (Text.file_lines content)) /\
  (get_last_line_of content = None ->
     forallb is_poll_event (trace (run (loop_body env) st).1) = true) /\
  (forall pre line post,
     content = pre +:+ line +:+ post ->
     at_line_start pre = true ->
     Forall (fun c => c <> Text.LF /\ c <> Text.CR) (chars line) ->
     Text.strip line <> EmptyString ->
     Text.all_space post = true ->
     get_last_line_of content = Some (Text.strip line)) /\
  (forall u, get_last_line_of content = Some u ->
     exists pre line post,
       content = pre +:+ line +:+ post /\
       at_line_start pre = true /\
       Forall (fun c => c <> Text.LF /\ c <> Text.CR) (chars line) /\
       Text.all_space post = true /\
       u = Text.strip line /\ u <> EmptyString) /\
  (get_last_line_of content = None <-> Text.all_space content = true).
Proof.
  intros Hread.
  destruct (get_last_line_on_the_lines env st content Hread)
    as (Hget & Hsome & Hnone & Hidle).
  assert (Hraw : forall pre line post,
            content = pre +:+ line +:+ post ->
            at_line_start pre = true ->
            Forall (fun c => c <> Text.LF /\ c <> Text.CR) (chars line) ->
            Text.strip line <> EmptyString ->
            Text.all_space post = true ->
            get_last_line_of content = Some (Text.strip line)).
  { intros pre line post -> Hpre Hline Hstrip Hpost.
    rewrite <- append_assoc, (get_last_line_of_append_space _ _ Hpost).
    by apply get_last_line_of_line_at_end. }
  split; [exact Hget|]. split; [exact Hsome|]. split; [exact Hnone|].
  split; [exact Hidle|]. split; [exact Hraw|]. split.
  - intros u Hu.
    destruct (last_nonblank_stretch content)
      as [Hw|(pre & line & post & Heq & Hpre & Hline & Hnb & Hpost)].
    { rewrite (get_last_line_of_all_space _ Hw) in Hu. discriminate. }
    apply strip_nonblank in Hnb.
    rewrite (Hraw pre line post Heq Hpre Hline Hnb Hpost) in Hu.
    injection Hu as <-. by exists pre, line, post.
  - split; [|apply get_last_line_of_all_space].
    intros Hu.
    destruct (last_nonblank_stretch content)
      as [Hw|(pre & line & post & Heq & Hpre & Hline & Hnb & Hpost)]; [done|].
    apply strip_nonblank in Hnb.
    rewrite (Hraw pre line post Heq Hpre Hline Hnb Hpost) in Hu.
    discriminate.
Qed.

Lemma get_last_line_returns_last_nonblank_witness :
  get_last_line_of transcript = Some "I'm thirsty" /\
  get_last_line env_blank_file =
    mkIO (Normal None) [EvReadFile (inr (" " +:+ nl +:+ nl))] /\
  forallb is_poll_event
    (trace (run (loop_body env_blank_file) initial_state).1) = true.
Proof.
  destruct (get_last_line_returns_last_nonblank
              (env_dispensing (VBool true)) initial_state transcript eq_refl)
    as (_ & _ & _ & _ & Hraw & _ & _).
  destruct (get_last_line_returns_last_nonblank
              env_blank_file initial_state (" " +:+ nl +:+ nl) eq_refl)
    as (Hget & _ & _ & Hidle & _ & _ & Hnone).
  split; [|split].
  - apply (Hraw ("hello" +:+ nl) "  I'm thirsty " (nl +:+ " " +:+ nl)).
    + reflexivity.
    + reflexivity.
    + vm_compute. repeat constructor; discriminate.
    + vm_compute. discriminate.
    + reflexivity.
  - exact Hget.
  - apply Hidle, Hnone. reflexivity.
Defined.
